(** * SSO access-token provider and redirect listener

    A shallow embedding of
      - [packages/core/src/auth/sso/model.ts]: tokens, registrations,
        [isExpired], [openSsoPortalLink];
      - the [SsoAccessTokenProvider] class: [invalidate], [getToken],
        [refreshToken], [authorize];
      - the [AuthSSOServer] class, the local listener that receives the
        OAuth redirect.

    Asynchronous functions are computations of a state-and-exception monad
    over a [World]; the collaborators (cache failures, OIDC client, browser
    opener, clock, sockets) answer through the oracles of an [Env]. *)

From Stdlib Require Import ZArith String List Bool Lia DecimalString.
From stdpp Require Import base option gmap strings list.
Import ListNotations.
Local Open Scope Z_scope.

(** ** Data model *)

(** A JavaScript [Date] is its time value: integral milliseconds since the
    epoch.  Invalid dates (time value NaN) are not represented. *)
Abbreviation Date := Z (only parsing).

Record SsoToken := {
  identity : option string;
  accessToken : string;
  token_expiresAt : Date;
  tokenType : option string;
  refreshToken : option string;
}.

Record ClientRegistration := {
  clientId : string;
  clientSecret : string;
  registration_expiresAt : Date;
  registration_scopes : option (list string);
  issuerUrl : option string;
}.

(** [Pick<SsoProfile, 'startUrl' | 'region' | 'scopes' | 'identifier'>] *)
Record SsoProfile := {
  region : string;
  startUrl : string;
  scopes : option (list string);
  identifier : option string;
}.

(** What [formatToken] builds and the token cache stores.  [getToken] tests
    [data.registration] for presence, so the field is optional on load. *)
Record CachedRecord := {
  token : SsoToken;
  registration : option ClientRegistration;
  record_region : string;
  record_startUrl : string;
}.

(** The structural argument [{ expiresAt: Date }] of [isExpired]. *)
Class Expirable (A : Type) := expiresAt : A -> Date.
#[global] Instance SsoToken_Expirable : Expirable SsoToken := token_expiresAt.
#[global] Instance ClientRegistration_Expirable : Expirable ClientRegistration :=
  registration_expiresAt.

Definition builderIdStartUrl : string := "https://view.awsapps.com/start".
Definition trustedDomainCancellation : string := "TrustedDomainCancellation".
Definition expirationBufferMs : Z := 60000.

Definition isDeprecatedAuth (registration : ClientRegistration) : bool :=
  match issuerUrl registration with None => true | Some _ => false end.

(** ** Thrown values *)

Inductive ErrorClass :=
| ClassToolkitError
| ClassMissingPortError
| ClassMissingCodeError
| ClassMissingStateError
| ClassInvalidStateError
| ClassAuthError
| ClassCancellationError
| ClassSSOOIDCServiceException
| ClassError.

(** An error object: its class (what [instanceof] and [deepStrictEqual] see),
    its message, and what the callers of the [ToolkitError] constructor pass
    in its options ([code], [name], [cancelled]).  [err_agent] is the reason
    of a [CancellationError]. *)
Record JsError := {
  err_class : ErrorClass;
  err_message : string;
  err_code : option string;
  err_name : option string;
  err_cancelled : bool;
  err_agent : option string;
}.

Definition mkToolkitError (cls : ErrorClass) (message : string) (code : option string) : JsError :=
  {| err_class := cls; err_message := message; err_code := code;
     err_name := None; err_cancelled := false; err_agent := None |}.

Definition MissingPortError : JsError :=
  mkToolkitError ClassMissingPortError "AuthSSOServer: missing auth server port" (Some "MissingPort"%string).
Definition MissingCodeError : JsError :=
  mkToolkitError ClassMissingCodeError "AuthSSOServer: missing code" (Some "MissingCode"%string).
Definition MissingStateError : JsError :=
  mkToolkitError ClassMissingStateError "AuthSSOServer: missing state" (Some "MissingState"%string).
Definition InvalidStateError : JsError :=
  mkToolkitError ClassInvalidStateError "AuthSSOServer: invalid state" (Some "InvalidState"%string).
Definition AuthError (error errorDescription : string) : JsError :=
  mkToolkitError ClassAuthError (error +:+ ": " +:+ errorDescription) (Some "AuthRedirectError"%string).

(** Modelled from the spec: [CancellationError] of [shared/utilities/timeoutUtils]
    is not part of the sources at hand; the spec describes it as "a cancellation
    error (reason: user)", so the model keeps the class and the reason. *)
Definition CancellationError (agent : string) : JsError :=
  {| err_class := ClassCancellationError; err_message := agent; err_code := None;
     err_name := None; err_cancelled := false; err_agent := Some agent |}.

(** The error [openSsoPortalLink] throws when the link was not opened. *)
Definition trustedDomainCancellationError : JsError :=
  {| err_class := ClassToolkitError;
     err_message := "User clicked 'Copy' or 'Cancel' during the Trusted Domain popup";
     err_code := Some trustedDomainCancellation;
     err_name := Some trustedDomainCancellation;
     err_cancelled := true;
     err_agent := None |}.

Definition instanceof (err : JsError) (cls : ErrorClass) : bool :=
  match err_class err, cls with
  | ClassToolkitError, ClassToolkitError
  | ClassMissingPortError, (ClassMissingPortError | ClassToolkitError)
  | ClassMissingCodeError, (ClassMissingCodeError | ClassToolkitError)
  | ClassMissingStateError, (ClassMissingStateError | ClassToolkitError)
  | ClassInvalidStateError, (ClassInvalidStateError | ClassToolkitError)
  | ClassAuthError, (ClassAuthError | ClassToolkitError)
  | ClassCancellationError, ClassCancellationError
  | ClassSSOOIDCServiceException, ClassSSOOIDCServiceException => true
  | _, ClassError => true
  | _, _ => false
  end.

(** ** The redirect listener, [AuthSSOServer] *)

Module Server.

(** [URLSearchParams]: the query as name/value pairs in order of appearance. *)
Abbreviation URLSearchParams := (list (string * string)) (only parsing).

Definition has (params : URLSearchParams) (name : string) : bool :=
  existsb (fun p => String.eqb (fst p) name) params.

Fixpoint get (params : URLSearchParams) (name : string) : option string :=
  match params with
  | [] => None
  | (k, v) :: rest => if String.eqb k name then Some v else get rest name
  end.

(** [!x] for [x : string | null]: null and the empty string are falsy. *)
Definition falsy (x : option string) : bool :=
  match x with
  | None => true
  | Some s => String.eqb s ""
  end.

(** A request after [new URL(req.url, baseUrl)]: [req_url = None] stands for
    a falsy [req.url]. *)
Record Url := { pathname : string; searchParams : URLSearchParams }.
Record Request := { req_origin : option string; req_url : option Url }.

(** What the handler did to [res]: the headers set, and the status and body
    once [writeHead]/[end] ran ([None]: the response was never sent). *)
Record Response := {
  res_headers : list (string * string);
  res_status : option Z;
  res_body : option string;
}.

Inductive PromiseState :=
| PromisePending
| PromiseFulfilled (result : string)
| PromiseRejected (reason : JsError).

(** [server.address()] *)
Inductive Address :=
| AddressInfo (port : Z)
| AddressString (addr : string).

(** A JavaScript number as far as [getPort] needs it. *)
Inductive JsNumber := Num (z : Z) | NaN.

Record AuthSSOServer := {
  state : string;
  authenticationPromise : PromiseState;
  listening : bool;
  address : option Address;
}.

Definition baseUrl : string := "http://127.0.0.1".
Definition oauthCallback : string := "/".

(** [new AuthSSOServer(state)] *)
Definition new (st : string) : AuthSSOServer :=
  {| state := st; authenticationPromise := PromisePending;
     listening := false; address := None |}.

Definition with_promise (p : PromiseState) (srv : AuthSSOServer) : AuthSSOServer :=
  {| state := state srv; authenticationPromise := p;
     listening := listening srv; address := address srv |}.

(** [this.deferred?.resolve] and [this.deferred?.reject]: [deferred] is set by
    the constructor, and settling a settled promise does nothing. *)
Definition settle (p : PromiseState) (srv : AuthSSOServer) : AuthSSOServer :=
  match authenticationPromise srv with
  | PromisePending => with_promise p srv
  | _ => srv
  end.
Definition resolve (result : string) := settle (PromiseFulfilled result).
Definition reject (reason : JsError) := settle (PromiseRejected reason).

Definition handleToken (params : URLSearchParams) (srv : AuthSSOServer) : AuthSSOServer :=
  let code := get params "code" in
  if falsy code then reject MissingCodeError srv
  else
    let st := get params "state" in
    if falsy st then reject MissingStateError srv
    else if negb (String.eqb (default ""%string st) (state srv)) then reject InvalidStateError srv
    else resolve (default ""%string code) srv.

Definition handleAuthentication (params : URLSearchParams) (srv : AuthSSOServer) : AuthSSOServer :=
  if has params "error" && has params "error_description" then
    let error := default ""%string (get params "error") in
    let errorDescription := default ""%string (get params "error_description") in
    reject (AuthError error errorDescription) srv
  else handleToken params srv.

(** [/test/.test(origin)] *)
Definition reg_test (origin : string) : bool :=
  match String.index 0 "test" origin with Some _ => true | None => false end.

Definition setHeader (name value : string) (res : Response) : Response :=
  {| res_headers := res_headers res ++ [(name, value)];
     res_status := res_status res; res_body := res_body res |}.
Definition writeHead (status : Z) (res : Response) : Response :=
  {| res_headers := res_headers res; res_status := Some status; res_body := res_body res |}.
Definition end_ (body : string) (res : Response) : Response :=
  {| res_headers := res_headers res; res_status := res_status res; res_body := Some body |}.
Definition emptyResponse : Response :=
  {| res_headers := []; res_status := None; res_body := None |}.

(** The callback given to [http.createServer]. *)
Definition requestListener (req : Request) (srv : AuthSSOServer) : AuthSSOServer * Response :=
  let origin := default ""%string (req_origin req) in
  let res := if reg_test origin then setHeader "Access-Control-Allow-Origin" "*" emptyResponse
             else emptyResponse in
  let res := setHeader "Access-Control-Allow-Methods" "GET" res in
  match req_url req with
  | None => (srv, res)
  | Some url =>
      if String.eqb (pathname url) oauthCallback then
        let srv := handleAuthentication (searchParams url) srv in
        (srv, end_ "Success!" (writeHead 200 res))
      else (srv, res)
  end.

(** A request for the callback path. *)
Definition to_callback (req : Request) : Prop :=
  exists params, req_url req = Some {| pathname := "/"; searchParams := params |}.

(** The listener serving a sequence of requests, one after the other. *)
Fixpoint serve (reqs : list Request) (srv : AuthSSOServer) : AuthSSOServer * list Response :=
  match reqs with
  | [] => (srv, [])
  | req :: rest =>
      let '(srv1, res) := requestListener req srv in
      let '(srv2, ress) := serve rest srv1 in
      (srv2, res :: ress)
  end.

(** How [server.listen(60821)] ends: the event that settles [start()]. *)
Inductive ListenEvent :=
| OnListening (addr : option Address)
| OnError (error : string)
| OnClose.

Definition listenPort : Z := 60821.

(** [start()]: the server afterwards, and the error it throws or rejects
    with ([None]: the returned promise resolves). *)
Definition start (ev : ListenEvent) (srv : AuthSSOServer) : AuthSSOServer * option JsError :=
  if listening srv then
    (srv, Some (mkToolkitError ClassToolkitError "AuthSSOServer: Server already started" None))
  else
    match ev with
    | OnClose =>
        (srv, Some (mkToolkitError ClassToolkitError "AuthSSOServer: Server has closed" None))
    | OnError error =>
        (srv, Some (mkToolkitError ClassToolkitError
                      ("AuthSSOServer: Server failed: " +:+ error) None))
    | OnListening addr =>
        let srv := {| state := state srv; authenticationPromise := authenticationPromise srv;
                      listening := true; address := addr |} in
        match addr with
        | None => (srv, Some MissingPortError)
        | Some _ => (srv, None)
        end
    end.

Definition getPort (parseInt : string -> JsNumber) (srv : AuthSSOServer) : JsNumber + JsError :=
  match address srv with
  | Some (AddressInfo port) => inl (Num port)
  | Some (AddressString addr) => inl (parseInt addr)
  | None => inr MissingPortError
  end.

(** A number inside a template literal. *)
Definition numberToString (n : JsNumber) : string :=
  match n with
  | Num z => NilZero.string_of_int (Z.to_int z)
  | NaN => "NaN"
  end.

Definition redirectUri (parseInt : string -> JsNumber) (srv : AuthSSOServer) : string + JsError :=
  match getPort parseInt srv with
  | inl port => inl (baseUrl +:+ ":" +:+ numberToString port)
  | inr err => inr err
  end.

(** [waitForAuthorization()] returns the promise. *)
Definition waitForAuthorization (srv : AuthSSOServer) : PromiseState :=
  authenticationPromise srv.

End Server.

(** ** The world the provider runs in *)

Inductive Outcome (A : Type) :=
| Returned (a : A)
| Threw (err : JsError)
| Hangs.
Arguments Returned {A} a.
Arguments Threw {A} err.
Arguments Hangs {A}.

(** The argument of [OidcClient.createToken]: the refresh request spreads the
    registration's client info and the whole token into it, the authorization
    request lists its fields. *)
Record CreateTokenRequest := {
  req_clientId : string;
  req_clientSecret : string;
  req_grantType : string;
  req_identity : option string;
  req_accessToken : option string;
  req_expiresAt : option Date;
  req_tokenType : option string;
  req_refreshToken : option string;
  req_redirectUri : option string;
  req_codeVerifier : option string;
  req_code : option string;
}.

Record AuthorizeRequest := {
  responseType : string;
  auth_clientId : string;
  auth_redirectUri : string;
  auth_scopes : list string;
  auth_state : string;
  codeChallenge : string;
  codeChallengeMethod : string;
}.

Record AwsRefreshCredentials := {
  result : string;
  reason : option string;
  requestId : option string;
  sessionDuration : option Z;
  credentialType : string;
  credentialSourceId : string;
}.

Abbreviation RegistrationKey := (string * option (list string))%type (only parsing).

(** Every call that leaves the provider, in the order it is made. *)
Inductive Event :=
| Log (sink : string)
| TokenLoad (key : string)
| TokenSave (key : string) (data : CachedRecord)
| TokenClear (key : string) (why : string)
| RegistrationClear (key : RegistrationKey) (why : string)
| OidcCreateToken (req : CreateTokenRequest)
| OidcAuthorize (req : AuthorizeRequest)
| EmitRefreshCredentials (metric : AwsRefreshCredentials)
| EmitLoginWithBrowser (res : string)
| OpenExternal (location : string)
| ServerListen (port : Z)
| ServerRequest (req : Server.Request) (res : Server.Response)
| ServerClose.

Record World := {
  tokenCache : gmap string CachedRecord;
  registrationCache : gmap RegistrationKey ClientRegistration;
  sessionCreationDates : gmap string Z;
  authServer : Server.AuthSSOServer;
  trace : list Event;
}.

(** The collaborators outside the sources at hand.  Every answer may depend on
    the whole world, [trace] included, so an oracle can answer the second call
    differently from the first. *)
Record Env := {
  (* shared/errors *)
  isNetworkError : JsError -> bool;
  isClientFault : JsError -> bool;
  getTelemetryResult : JsError -> string;
  getTelemetryReason : JsError -> option string;
  getRequestId : JsError -> option string;
  (* builtins *)
  parseInt : string -> Server.JsNumber;
  clockNow : World -> Z;
  dateNow : World -> Z;
  randomUUID : World -> string;
  randomCodeVerifier : World -> string;
  sha256Base64url : string -> string;
  (* cache: does this call complete, reject or never settle *)
  cacheCall : Event -> World -> Outcome unit;
  (* OIDC client, browser opener, sockets *)
  oidcCreateToken : CreateTokenRequest -> World -> Outcome SsoToken;
  oidcAuthorize : AuthorizeRequest -> World -> Outcome string;
  openExternal : string -> World -> Outcome bool;
  listen : World -> Server.ListenEvent;
  redirects : World -> list Server.Request;
  closeError : World -> option JsError;
}.

Definition emit (ev : Event) (w : World) : World :=
  {| tokenCache := tokenCache w; registrationCache := registrationCache w;
     sessionCreationDates := sessionCreationDates w; authServer := authServer w;
     trace := trace w ++ [ev] |}.

Definition emits (evs : list Event) (w : World) : World :=
  {| tokenCache := tokenCache w; registrationCache := registrationCache w;
     sessionCreationDates := sessionCreationDates w; authServer := authServer w;
     trace := trace w ++ evs |}.

Definition with_tokenCache (m : gmap string CachedRecord) (w : World) : World :=
  {| tokenCache := m; registrationCache := registrationCache w;
     sessionCreationDates := sessionCreationDates w; authServer := authServer w;
     trace := trace w |}.

Definition with_registrationCache (m : gmap RegistrationKey ClientRegistration) (w : World) : World :=
  {| tokenCache := tokenCache w; registrationCache := m;
     sessionCreationDates := sessionCreationDates w; authServer := authServer w;
     trace := trace w |}.

Definition with_authServer (srv : Server.AuthSSOServer) (w : World) : World :=
  {| tokenCache := tokenCache w; registrationCache := registrationCache w;
     sessionCreationDates := sessionCreationDates w; authServer := srv;
     trace := trace w |}.

Definition with_sessionCreationDates (m : gmap string Z) (w : World) : World :=
  {| tokenCache := tokenCache w; registrationCache := registrationCache w;
     sessionCreationDates := m; authServer := authServer w;
     trace := trace w |}.

(** The argument of [OidcClient.registerClient]. *)
Record RegisterClientRequest := {
  clientName : string;
  clientType : string;
  register_scopes : option (list string);
  grantTypes : list string;
  redirectUris : list string;
  register_issuerUrl : string;
}.

(** What [createToken] needs beyond [Env]: the IDE properties, the
    [registerClient] call of the OIDC client, and whether a [load] or [save]
    of the registration cache and an [update] of the memento complete.  These
    calls are not among the [Event]s; what they do shows in the caches. *)
Record FlowEnv := {
  company : string;
  cloud9 : bool;
  oidcRegisterClient : RegisterClientRequest -> World -> Outcome ClientRegistration;
  registrationLoadCall : RegistrationKey -> World -> Outcome unit;
  registrationSaveCall : RegistrationKey -> ClientRegistration -> World -> Outcome unit;
  mementoUpdateCall : gmap string Z -> World -> Outcome unit;
}.

(** ** Asynchronous code: state and exceptions *)

Definition M (A : Type) : Type := World -> Outcome A * World.

Definition ret {A} (a : A) : M A := fun w => (Returned a, w).
Definition throw {A} (err : JsError) : M A := fun w => (Threw err, w).
Definition reads {A} (f : World -> A) : M A := fun w => (Returned (f w), w).
Definition tell (ev : Event) : M unit := fun w => (Returned tt, emit ev w).

Definition bind {A B} (m : M A) (k : A -> M B) : M B :=
  fun w =>
    match m w with
    | (Returned a, w1) => k a w1
    | (Threw err, w1) => (Threw err, w1)
    | (Hangs, w1) => (Hangs, w1)
    end.

(** [try { body } catch (err) { handler }] *)
Definition try_catch {A} (body : M A) (handler : JsError -> M A) : M A :=
  fun w =>
    match body w with
    | (Threw err, w1) => handler err w1
    | other => other
    end.

(** [try { body } finally { cleanup }]: a cleanup that throws replaces the
    outcome of the body; a body that never settles never reaches it. *)
Definition try_finally {A} (body : M A) (cleanup : M unit) : M A :=
  fun w =>
    match body w with
    | (Hangs, w1) => (Hangs, w1)
    | (o, w1) =>
        match cleanup w1 with
        | (Returned _, w2) => (o, w2)
        | (Threw err, w2) => (Threw err, w2)
        | (Hangs, w2) => (Hangs, w2)
        end
    end.

(** [Promise.allSettled([p, q])]: both calls are made, in array order, before
    anything is awaited; the result holds both outcomes and never rejects. *)
Definition allSettled {A B} (p : M A) (q : M B) : M (Outcome A * Outcome B) :=
  fun w =>
    let '(o1, w1) := p w in
    let '(o2, w2) := q w1 in
    match o1, o2 with
    | Hangs, _ | _, Hangs => (Hangs, w2)
    | _, _ => (Returned (o1, o2), w2)
    end.

Declare Scope js_scope.
Delimit Scope js_scope with js.
Notation "x <- m ;; k" := (bind m (fun x => k))
  (at level 100, m at next level, k at level 200, right associativity) : js_scope.
Notation "m ;; k" := (bind m (fun _ => k))
  (at level 100, k at level 200, right associativity) : js_scope.
Local Open Scope js_scope.

(** ** [model.ts]: expiry, and opening the portal link *)

Section Model.
Context (env : Env).

(** [globals.clock.Date.now() + expirationBufferMs >= expirable.expiresAt.getTime()] *)
Definition isExpired {A} `{Expirable A} (expirable : A) : M bool :=
  reads (fun w => clockNow env w + expirationBufferMs >=? expiresAt expirable).

Definition vscode_openExternal (location : string) : M bool :=
  fun w => (openExternal env location w, emit (OpenExternal location) w).

(** Modelled from the spec: [telemetry.aws_loginWithBrowser.run] lives in
    [shared/telemetry], outside the sources at hand.  The test of
    [openSsoPortalLink] shows what it does: it runs the callback, records the
    metric with the result, and rejects when the callback rejects. *)
Definition aws_loginWithBrowser_run {A} (fn : M A) : M A :=
  fun w =>
    match fn w with
    | (Returned a, w1) => (Returned a, emit (EmitLoginWithBrowser "Succeeded") w1)
    | (Threw err, w1) => (Threw err, emit (EmitLoginWithBrowser (getTelemetryResult env err)) w1)
    | (Hangs, w1) => (Hangs, w1)
    end.

Definition openSsoUrl (location : string) : M bool :=
  didOpenUrl <- vscode_openExternal location ;;
  if negb didOpenUrl then throw trustedDomainCancellationError
  else ret didOpenUrl.

Definition openSsoPortalLink (location : string) : M bool :=
  aws_loginWithBrowser_run (openSsoUrl location).

End Model.

(** ** [SsoAccessTokenProvider] *)

Definition clientRegistrationType : string := "public".
Definition authorizationGrantType : string := "authorization_code".
Definition refreshGrantType : string := "refresh_token".

(** Modelled from the spec: [hasProps] of [shared/utilities/tsUtils] is not
    part of the sources at hand; [hasProps(token, 'refreshToken')] is the
    spec's "a refresh token exists". *)
Definition hasProps_refreshToken (tok : SsoToken) : bool :=
  match refreshToken tok with Some _ => true | None => false end.

(** [{ ...tok, identity }] *)
Definition withIdentity (id : string) (tok : SsoToken) : SsoToken :=
  {| identity := Some id;
     accessToken := accessToken tok;
     token_expiresAt := token_expiresAt tok;
     tokenType := tokenType tok;
     refreshToken := refreshToken tok |}.

Module SsoAccessTokenProvider.
Section Provider.
Context (env : Env) (profile : SsoProfile).

Definition tokenCacheKey : string :=
  default (startUrl profile) (identifier profile).

Definition registrationCacheKey : RegistrationKey :=
  (region profile, scopes profile).

Definition formatToken (tok : SsoToken) (reg : ClientRegistration) : CachedRecord :=
  {| token := tok; registration := Some reg;
     record_region := region profile; record_startUrl := startUrl profile |}.

(** A call into the cache: the oracle decides whether it completes; when it
    does, the store answers and is updated. *)
Definition cache_call {A} (ev : Event) (answer : World -> A) (effect : World -> World) : M A :=
  fun w =>
    match cacheCall env ev w with
    | Returned _ => (Returned (answer w), emit ev (effect w))
    | Threw err => (Threw err, emit ev w)
    | Hangs => (Hangs, emit ev w)
    end.

Definition cache_token_load (key : string) : M (option CachedRecord) :=
  cache_call (TokenLoad key) (fun w => tokenCache w !! key) (fun w => w).

Definition cache_token_save (key : string) (data : CachedRecord) : M unit :=
  cache_call (TokenSave key data) (fun _ => tt)
    (fun w => with_tokenCache (<[key := data]> (tokenCache w)) w).

Definition cache_token_clear (key : string) (why : string) : M unit :=
  cache_call (TokenClear key why) (fun _ => tt)
    (fun w => with_tokenCache (delete key (tokenCache w)) w).

Definition cache_registration_clear (key : RegistrationKey) (why : string) : M unit :=
  cache_call (RegistrationClear key why) (fun _ => tt)
    (fun w => with_registrationCache (delete key (registrationCache w)) w).

Definition oidc_createToken (req : CreateTokenRequest) : M SsoToken :=
  fun w => (oidcCreateToken env req w, emit (OidcCreateToken req) w).

Definition oidc_authorize (req : AuthorizeRequest) : M string :=
  fun w => (oidcAuthorize env req w, emit (OidcAuthorize req) w).

Definition getSessionCreationDate (id : string) : M (option Z) :=
  reads (fun w => sessionCreationDates w !! id).

Definition getSessionDuration (id : string) : M (option Z) :=
  creationDate <- getSessionCreationDate id ;;
  match creationDate with
  | Some d => reads (fun w => Some (dateNow env w - d))
  | None => ret None
  end.

Definition invalidate : M unit :=
  tell (Log "info") ;;
  _ <- allSettled
         (cache_token_clear tokenCacheKey "SsoAccessTokenProvider.invalidate()")
         (cache_registration_clear registrationCacheKey
            "SsoAccessTokenProvider.invalidate()") ;;
  ret tt.

Definition refreshRequest (tok : SsoToken) (reg : ClientRegistration) : CreateTokenRequest :=
  {| req_clientId := clientId reg;
     req_clientSecret := clientSecret reg;
     req_grantType := refreshGrantType;
     req_identity := identity tok;
     req_accessToken := Some (accessToken tok);
     req_expiresAt := Some (token_expiresAt tok);
     req_tokenType := tokenType tok;
     req_refreshToken := refreshToken tok;
     req_redirectUri := None;
     req_codeVerifier := None;
     req_code := None |}.

(** The [try] block of [refreshToken]. *)
Definition refreshToken_try (tok : SsoToken) (reg : ClientRegistration) : M CachedRecord :=
  response <- oidc_createToken (refreshRequest tok reg) ;;
  let refreshed := formatToken response reg in
  cache_token_save tokenCacheKey refreshed ;;
  ret refreshed.

(** The [catch (err)] block of [refreshToken]. *)
Definition refreshToken_catch (err : JsError) : M CachedRecord :=
  (if negb (isNetworkError env err) then
     duration <- getSessionDuration tokenCacheKey ;;
     tell (EmitRefreshCredentials
             {| result := getTelemetryResult env err;
                reason := getTelemetryReason env err;
                requestId := getRequestId env err;
                sessionDuration := duration;
                credentialType := "bearerToken";
                credentialSourceId :=
                  if String.eqb (startUrl profile) builderIdStartUrl
                  then "awsId" else "iamIdentityCenter" |}) ;;
     if instanceof err ClassSSOOIDCServiceException && isClientFault env err then
       cache_token_clear tokenCacheKey
         ("client fault: SSOOIDCServiceException: " +:+ err_message err)
     else ret tt
   else ret tt) ;;
  throw err.

Definition refreshToken (tok : SsoToken) (reg : ClientRegistration) : M CachedRecord :=
  try_catch (refreshToken_try tok reg) refreshToken_catch.

Definition getToken : M (option SsoToken) :=
  data <- cache_token_load tokenCacheKey ;;
  tell (Log "info") ;;
  match data with
  | None => ret None
  | Some data =>
      tokenExpired <- isExpired env (token data) ;;
      if negb tokenExpired then ret (Some (token data))
      else
        match registration data with
        | Some reg =>
            registrationExpired <- isExpired env reg ;;
            if negb registrationExpired && hasProps_refreshToken (token data) then
              refreshed <- refreshToken (token data) reg ;;
              ret (Some (token refreshed))
            else invalidate ;; ret None
        | None => invalidate ;; ret None
        end
  end.

(** *** The interactive flow *)

Definition server_start : M unit :=
  fun w =>
    let '(srv, err) := Server.start (listen env w) (authServer w) in
    let w1 := emit (ServerListen Server.listenPort) (with_authServer srv w) in
    match err with
    | None => (Returned tt, w1)
    | Some e => (Threw e, w1)
    end.

Definition server_redirectUri : M string :=
  fun w =>
    match Server.redirectUri (parseInt env) (authServer w) with
    | inl uri => (Returned uri, w)
    | inr err => (Threw err, w)
    end.

(** Awaiting [waitForAuthorization()]: the listener serves the requests that
    reach it, then the promise decides; while it is pending the await never
    returns. *)
Definition server_waitForAuthorization : M string :=
  fun w =>
    let reqs := redirects env w in
    let '(srv, ress) := Server.serve reqs (authServer w) in
    let w1 := emits (zip_with ServerRequest reqs ress) (with_authServer srv w) in
    match Server.waitForAuthorization srv with
    | Server.PromisePending => (Hangs, w1)
    | Server.PromiseFulfilled code => (Returned code, w1)
    | Server.PromiseRejected err => (Threw err, w1)
    end.

(** Awaiting [close()]: a server that is not listening rejects with [Server
    not started]; a listening one stops, after which [server.listening] is
    false and [server.address()] is null, and the close callback decides
    the outcome. *)
Definition server_close : M unit :=
  fun w =>
    let srv := authServer w in
    if negb (Server.listening srv) then
      (Threw (mkToolkitError ClassToolkitError "AuthSSOServer: Server not started" None),
       emit ServerClose w)
    else
      let stopped := {| Server.state := Server.state srv;
                        Server.authenticationPromise := Server.authenticationPromise srv;
                        Server.listening := false;
                        Server.address := None |} in
      match closeError env w with
      | Some err => (Threw err, emit ServerClose (with_authServer stopped w))
      | None => (Returned tt, emit ServerClose (with_authServer stopped w))
      end.

Definition authorize (reg : ClientRegistration) : M CachedRecord :=
  st <- reads (randomUUID env) ;;
  (fun w => (Returned tt, with_authServer (Server.new st) w)) ;;
  try_finally
    (try_catch
       (server_start ;;
        redirectUri <- server_redirectUri ;;
        codeVerifier <- reads (randomCodeVerifier env) ;;
        let challenge := sha256Base64url env codeVerifier in
        location <- oidc_authorize
                      {| responseType := "code";
                         auth_clientId := clientId reg;
                         auth_redirectUri := redirectUri;
                         auth_scopes := default [] (scopes profile);
                         auth_state := st;
                         codeChallenge := challenge;
                         codeChallengeMethod := "S256" |} ;;
        opened <- openSsoPortalLink env location ;;
        (if negb opened then throw (CancellationError "user") else ret tt) ;;
        authorizationResult <- server_waitForAuthorization ;;
        let tokenRequest :=
          {| req_clientId := clientId reg;
             req_clientSecret := clientSecret reg;
             req_grantType := authorizationGrantType;
             req_identity := None;
             req_accessToken := None;
             req_expiresAt := None;
             req_tokenType := None;
             req_refreshToken := None;
             req_redirectUri := Some redirectUri;
             req_codeVerifier := Some codeVerifier;
             req_code := Some authorizationResult |} in
        tok <- oidc_createToken tokenRequest ;;
        ret (formatToken tok reg))
       (fun err => tell (Log "console") ;; throw err))
    server_close.

(** *** Creating a token *)

Context (flow : FlowEnv).

Definition cache_registration_load (key : RegistrationKey) : M (option ClientRegistration) :=
  fun w =>
    match registrationLoadCall flow key w with
    | Returned _ => (Returned (registrationCache w !! key), w)
    | Threw err => (Threw err, w)
    | Hangs => (Hangs, w)
    end.

Definition cache_registration_save (key : RegistrationKey) (reg : ClientRegistration) : M unit :=
  fun w =>
    match registrationSaveCall flow key reg w with
    | Returned _ => (Returned tt, with_registrationCache (<[key := reg]> (registrationCache w)) w)
    | Threw err => (Threw err, w)
    | Hangs => (Hangs, w)
    end.

Definition oidc_registerClient (req : RegisterClientRequest) : M ClientRegistration :=
  fun w => (oidcRegisterClient flow req w, w).

(** [memento.update(sessionCreationDateKey, value)] *)
Definition memento_update (value : gmap string Z) : M unit :=
  fun w =>
    match mementoUpdateCall flow value w with
    | Returned _ => (Returned tt, with_sessionCreationDates value w)
    | Threw err => (Threw err, w)
    | Hangs => (Hangs, w)
    end.

Definition registerClient : M ClientRegistration :=
  let companyName := company flow in
  oidc_registerClient
    {| clientName := if cloud9 flow then companyName +:+ " Cloud9"
                     else companyName +:+ " Toolkit for VSCode";
       clientType := clientRegistrationType;
       register_scopes := scopes profile;
       grantTypes := [authorizationGrantType; refreshGrantType];
       redirectUris := ["http://127.0.0.1:60821"];
       register_issuerUrl := startUrl profile |}.

(** Modelled from the spec: [loadOr] of [shared/utilities/cacheUtils] is not
    part of the sources at hand.  The spec has it "return the cached
    registration" if there is one, "else register a new client and cache it
    before returning". *)
Definition loadOr (key : RegistrationKey) (fn : M ClientRegistration) : M ClientRegistration :=
  cached <- cache_registration_load key ;;
  match cached with
  | Some reg => ret reg
  | None =>
      data <- fn ;;
      cache_registration_save key data ;;
      ret data
  end.

Definition getValidatedClientRegistration : M ClientRegistration :=
  let cacheKey := registrationCacheKey in
  cachedRegistration <- cache_registration_load cacheKey ;;
  match cachedRegistration with
  | Some reg =>
      expired <- isExpired env reg ;;
      if expired || isDeprecatedAuth reg then invalidate else ret tt
  | None => ret tt
  end ;;
  loadOr cacheKey registerClient.

Definition runFlow : M CachedRecord :=
  reg <- getValidatedClientRegistration ;;
  try_catch (authorize reg)
    (fun err =>
       (if instanceof err ClassSSOOIDCServiceException && isClientFault env err then
          cache_registration_clear registrationCacheKey
            ("client fault: SSOOIDCServiceException: " +:+ err_message err)
        else ret tt) ;;
       throw err).

Definition setSessionCreationDate (id : string) (date : Date) : M unit :=
  try_catch
    (current <- reads sessionCreationDates ;;
     memento_update (<[id := date]> current))
    (fun err => tell (Log "verbose")).

Definition createToken : M SsoToken :=
  access <- runFlow ;;
  let id := tokenCacheKey in
  cache_token_save id access ;;
  date <- reads (dateNow env) ;;
  setSessionCreationDate tokenCacheKey date ;;
  ret (withIdentity id (token access)).

End Provider.
End SsoAccessTokenProvider.

(** ** Vocabulary for the properties *)

(** The calls that belong to the interactive browser flow of [authorize]:
    the authorization URL, the browser, the local listener. *)
Definition interactive (ev : Event) : bool :=
  match ev with
  | OidcAuthorize _ | OpenExternal _ | EmitLoginWithBrowser _
  | ServerListen _ | ServerRequest _ _ | ServerClose => true
  | _ => false
  end.

(** A computation that makes no interactive call and leaves the listener
    alone, whatever the world it starts in. *)
Definition non_interactive {A} (m : M A) : Prop :=
  forall w, exists t,
    trace (snd (m w)) = trace w ++ t /\
    Forall (fun ev => interactive ev = false) t /\
    authServer (snd (m w)) = authServer w.

(** The reason [invalidate] gives to both [clear] calls. *)
Definition invalidateReason : string := "SsoAccessTokenProvider.invalidate()".

(** The reason [refreshToken] gives when it clears the token after a client
    fault. *)
Definition clientFaultReason (err : JsError) : string :=
  "client fault: SSOOIDCServiceException: " +:+ err_message err.

(** The condition under which [refreshToken] and [runFlow] treat a failure as
    a client fault reported by the provider. *)
Definition providerClientFault (env : Env) (err : JsError) : bool :=
  instanceof err ClassSSOOIDCServiceException && isClientFault env err.

(** A computation whose calls all satisfy [P], whatever the world it starts
    in. *)
Definition emits_only (P : Event -> Prop) {A} (m : M A) : Prop :=
  forall w, exists t, trace (snd (m w)) = trace w ++ t /\ Forall P t.

(** A computation that leaves every token entry but the one under [key],
    every registration entry but the one under [regKey], and the session
    creation dates as they were. *)
Definition keeps_others (key : string) (regKey : RegistrationKey) {A} (m : M A) : Prop :=
  forall w,
    (forall k, k <> key -> tokenCache (snd (m w)) !! k = tokenCache w !! k) /\
    (forall k, k <> regKey -> registrationCache (snd (m w)) !! k = registrationCache w !! k) /\
    sessionCreationDates (snd (m w)) = sessionCreationDates w.

(** What ties a token exchange [treq] to the run of [authorize] whose calls
    are [t]: the authorization request carried the state [st] and the S256
    challenge of the verifier the exchange presents, the exchange names the
    same redirect URI and the registration's client, and its code arrived in a
    request to [/] that carried the state [st]. *)
Definition exchange_bound (env : Env) (reg : ClientRegistration) (st : string)
    (t : list Event) (treq : CreateTokenRequest) : Prop :=
  exists areq verifier code http res params,
    In (OidcAuthorize areq) t /\
    responseType areq = "code" /\
    auth_clientId areq = clientId reg /\
    auth_state areq = st /\
    codeChallengeMethod areq = "S256" /\
    codeChallenge areq = sha256Base64url env verifier /\
    req_grantType treq = authorizationGrantType /\
    req_clientId treq = clientId reg /\
    req_clientSecret treq = clientSecret reg /\
    req_codeVerifier treq = Some verifier /\
    req_redirectUri treq = Some (auth_redirectUri areq) /\
    req_code treq = Some code /\
    In (ServerRequest http res) t /\
    Server.req_url http = Some {| Server.pathname := "/"; Server.searchParams := params |} /\
    Server.get params "code" = Some code /\
    Server.get params "state" = Some st.

(** ** Concrete worlds *)

Module Demo.

Definition profile : SsoProfile :=
  {| region := "us-east-1"; startUrl := "https://d-0123456789.awsapps.com/start";
     scopes := Some ["sso:account:access"%string]; identifier := None |}.

Definition reg (expires : Z) : ClientRegistration :=
  {| clientId := "client-id"; clientSecret := "client-secret";
     registration_expiresAt := expires;
     registration_scopes := Some ["sso:account:access"%string];
     issuerUrl := Some "https://d-0123456789.awsapps.com/start"%string |}.

Definition tok (access : string) (expires : Z) (refresh : option string) : SsoToken :=
  {| identity := None; accessToken := access; token_expiresAt := expires;
     tokenType := Some "Bearer"%string; refreshToken := refresh |}.

Definition serviceException (message : string) : JsError :=
  {| err_class := ClassSSOOIDCServiceException; err_message := message;
     err_code := None; err_name := Some "InvalidGrantException"%string;
     err_cancelled := false; err_agent := None |}.

Definition networkError : JsError :=
  {| err_class := ClassError; err_message := "getaddrinfo ENOTFOUND";
     err_code := Some "ENOTFOUND"%string; err_name := None;
     err_cancelled := false; err_agent := None |}.

Definition diskError : JsError :=
  {| err_class := ClassError; err_message := "EACCES: permission denied";
     err_code := Some "EACCES"%string; err_name := None;
     err_cancelled := false; err_agent := None |}.

(** An environment with the clock at [now], a cache whose calls answer
    [cache], an OIDC client whose [createToken] answers [create], a browser
    opener answering [opened] and a browser sending [reqs]. *)
Definition env (now : Z) (cache : Event -> Outcome unit) (create : Outcome SsoToken)
    (opened : Outcome bool) (reqs : list Server.Request) : Env :=
  {| isNetworkError := fun err =>
       match err_code err with Some c => String.eqb c "ENOTFOUND" | None => false end;
     isClientFault := fun err =>
       match err_name err with Some n => String.eqb n "InvalidGrantException" | None => false end;
     getTelemetryResult := fun _ => "Failed"%string;
     getTelemetryReason := fun err => err_name err;
     getRequestId := fun _ => None;
     parseInt := fun _ => Server.NaN;
     clockNow := fun _ => now;
     dateNow := fun _ => now;
     randomUUID := fun _ => "7b0c1c3e-state"%string;
     randomCodeVerifier := fun _ => "verifier"%string;
     sha256Base64url := fun v => ("S256:" +:+ v)%string;
     cacheCall := fun ev _ => cache ev;
     oidcCreateToken := fun _ _ => create;
     oidcAuthorize := fun req _ => Returned ("https://oidc.example/authorize?state=" +:+ auth_state req)%string;
     openExternal := fun _ _ => opened;
     listen := fun _ => Server.OnListening (Some (Server.AddressInfo 60821));
     redirects := fun _ => reqs;
     closeError := fun _ => None |}.

Definition healthy : Event -> Outcome unit := fun _ => Returned tt.


(** A cache whose token store cannot clear, while the registration store can. *)
Definition brokenTokenClear : Event -> Outcome unit :=
  fun ev => match ev with
            | TokenClear _ _ => Threw diskError
            | _ => Returned tt
            end.

Definition world (tokens : gmap string CachedRecord)
    (regs : gmap RegistrationKey ClientRegistration) : World :=
  {| tokenCache := tokens; registrationCache := regs; sessionCreationDates := ∅;
     authServer := Server.new ""; trace := [] |}.

Definition key : string := SsoAccessTokenProvider.tokenCacheKey profile.
Definition regKey : RegistrationKey := SsoAccessTokenProvider.registrationCacheKey profile.

Definition cached (t : SsoToken) (r : option ClientRegistration) : CachedRecord :=
  {| token := t; registration := r; record_region := region profile;
     record_startUrl := startUrl profile |}.

Definition query (params : list (string * string)) : Server.Request :=
  {| Server.req_origin := None;
     Server.req_url := Some {| Server.pathname := "/"; Server.searchParams := params |} |}.

End Demo.

(** A flow environment: the OIDC client registers [fresh], and the
    registration cache and the memento answer as [loads], [saves] and
    [updates] say. *)
Module DemoFlow.

Definition flow (fresh : Outcome ClientRegistration) (loads saves updates : Outcome unit) : FlowEnv :=
  {| company := "AWS";
     cloud9 := false;
     oidcRegisterClient := fun _ _ => fresh;
     registrationLoadCall := fun _ _ => loads;
     registrationSaveCall := fun _ _ _ => saves;
     mementoUpdateCall := fun _ _ => updates |}.

Definition ok : Outcome unit := Returned tt.

(** A registration of the device-code era: no [issuerUrl]. *)
Definition legacy (expires : Z) : ClientRegistration :=
  {| clientId := "old-client"; clientSecret := "old-secret";
     registration_expiresAt := expires;
     registration_scopes := Some ["sso:account:access"];
     issuerUrl := None |}.

End DemoFlow.

(** * Properties *)

(** ** The redirect listener *)

Section ServerFacts.
Import Server.

Lemma has_get (params : list (string * string)) (name : string) :
  has params name = true <-> exists v, get params name = Some v.
Proof.
  unfold has. induction params as [|[k v] rest IH]; simpl.
  - split; [discriminate | intros [v Hv]; discriminate].
  - destruct (String.eqb k name); simpl.
    + split; eauto.
    + exact IH.
Qed.

Lemma has_false_get (params : list (string * string)) (name : string) :
  has params name = false <-> get params name = None.
Proof.
  pose proof (has_get params name) as H.
  destruct (has params name), (get params name) as [v|]; split; intros E;
    try reflexivity; try discriminate.
  - destruct H as [H _]. destruct (H eq_refl) as [v Hv]. discriminate.
  - destruct H as [_ H]. assert (false = true) by eauto. discriminate.
Qed.

Lemma falsy_false (x : option string) :
  falsy x = false <-> exists s, x = Some s /\ s <> ""%string.
Proof.
  destruct x as [s|]; simpl.
  - destruct (String.eqb_spec s "") as [->|Hne]; split.
    + discriminate.
    + intros [s [[= <-] Hs]]. congruence.
    + eauto.
    + reflexivity.
  - split; [discriminate | intros [s [? _]]; discriminate].
Qed.

(** The first [resolve] or [reject] decides. *)
Lemma settle_pending (p : PromiseState) (srv : AuthSSOServer) :
  authenticationPromise srv = PromisePending ->
  authenticationPromise (settle p srv) = p.
Proof. unfold settle, resolve, reject. by intros ->. Qed.

(** A settled promise ignores every later [resolve] and [reject]. *)
Lemma settle_settled (p : PromiseState) (srv : AuthSSOServer) :
  authenticationPromise srv <> PromisePending -> settle p srv = srv.
Proof. unfold settle. destruct (authenticationPromise srv); congruence. Qed.

(** Every path through [handleAuthentication] settles the promise. *)
Lemma handleAuthentication_calls_settle (params : list (string * string)) (srv : AuthSSOServer) :
  exists p, p <> PromisePending /\ handleAuthentication params srv = settle p srv.
Proof.
  unfold handleAuthentication, handleToken, resolve, reject.
  repeat match goal with |- context [if ?b then _ else _] => destruct b end;
    eexists; (split; [| reflexivity]); discriminate.
Qed.

Lemma handleAuthentication_settled (params : list (string * string)) (srv : AuthSSOServer) :
  authenticationPromise srv <> PromisePending -> handleAuthentication params srv = srv.
Proof.
  intros H. destruct (handleAuthentication_calls_settle params srv) as (p & _ & ->).
  by apply settle_settled.
Qed.

Lemma handleAuthentication_settles (params : list (string * string)) (srv : AuthSSOServer) :
  authenticationPromise (handleAuthentication params srv) <> PromisePending.
Proof.
  destruct (handleAuthentication_calls_settle params srv) as (p & Hp & ->).
  unfold settle. destruct (authenticationPromise srv) eqn:E; simpl; congruence.
Qed.

Lemma requestListener_callback (req : Request) (params : list (string * string))
    (srv : AuthSSOServer) :
  req_url req = Some {| pathname := "/"; searchParams := params |} ->
  fst (requestListener req srv) = handleAuthentication params srv /\
  res_status (snd (requestListener req srv)) = Some 200 /\
  res_body (snd (requestListener req srv)) = Some "Success!"%string.
Proof.
  intros H. unfold requestListener. rewrite H.
  destruct (reg_test _); simpl; auto.
Qed.

Lemma requestListener_other (req : Request) (srv : AuthSSOServer) :
  ~ to_callback req -> fst (requestListener req srv) = srv.
Proof.
  intros H. unfold requestListener.
  destruct (req_url req) as [[path params]|] eqn:E; [|reflexivity].
  simpl. destruct (String.eqb_spec path oauthCallback) as [->|Hne]; [|reflexivity].
  exfalso. apply H. exists params. exact E.
Qed.

Lemma requestListener_settled (req : Request) (srv : AuthSSOServer) :
  authenticationPromise srv <> PromisePending -> fst (requestListener req srv) = srv.
Proof.
  intros H. unfold requestListener.
  destruct (req_url req) as [[path params]|]; [|reflexivity].
  simpl. destruct (String.eqb path oauthCallback); [|reflexivity].
  simpl. by apply handleAuthentication_settled.
Qed.

Lemma serve_cons (req : Request) (rest : list Request) (srv : AuthSSOServer) :
  serve (req :: rest) srv =
  (fst (serve rest (fst (requestListener req srv))),
   snd (requestListener req srv) :: snd (serve rest (fst (requestListener req srv)))).
Proof.
  simpl. destruct (requestListener req srv) as [srv1 res]. simpl.
  destruct (serve rest srv1); reflexivity.
Qed.

Lemma serve_settled (reqs : list Request) (srv : AuthSSOServer) :
  authenticationPromise srv <> PromisePending -> fst (serve reqs srv) = srv.
Proof.
  revert srv. induction reqs as [|req rest IH]; intros srv H; [reflexivity|].
  rewrite serve_cons. simpl. rewrite requestListener_settled by exact H. by apply IH.
Qed.

Lemma serve_app (pre post : list Request) (srv : AuthSSOServer) :
  serve (pre ++ post) srv =
  (fst (serve post (fst (serve pre srv))),
   snd (serve pre srv) ++ snd (serve post (fst (serve pre srv)))).
Proof.
  revert srv. induction pre as [|req rest IH]; intros srv.
  - simpl. by destruct (serve post srv).
  - rewrite <- app_comm_cons, !serve_cons, IH. reflexivity.
Qed.

Lemma serve_others (reqs : list Request) (srv : AuthSSOServer) :
  Forall (fun req => ~ to_callback req) reqs -> fst (serve reqs srv) = srv.
Proof.
  revert srv. induction reqs as [|req rest IH]; intros srv H; [reflexivity|].
  inversion H as [|? ? Hreq Hrest]; subst.
  rewrite serve_cons. simpl. rewrite requestListener_other by exact Hreq. by apply IH.
Qed.

Lemma serve_length (reqs : list Request) (srv : AuthSSOServer) :
  length (snd (serve reqs srv)) = length reqs.
Proof.
  revert srv. induction reqs as [|req rest IH]; intros srv; [reflexivity|].
  rewrite serve_cons. simpl. by rewrite IH.
Qed.

Lemma serve_status (reqs : list Request) (srv : AuthSSOServer) (i : nat)
    (req : Request) (res : Response) :
  reqs !! i = Some req -> snd (serve reqs srv) !! i = Some res ->
  to_callback req -> res_status res = Some 200.
Proof.
  revert srv i. induction reqs as [|r rest IH]; intros srv i Hreq Hres Hcb; [discriminate|].
  rewrite serve_cons in Hres. destruct i as [|i]; simpl in *.
  - injection Hreq as ->. injection Hres as <-.
    destruct Hcb as [params Hp]. by apply (requestListener_callback _ _ srv) in Hp as (_ & ? & _).
  - eapply IH; eauto.
Qed.

End ServerFacts.

Section ServerClaims.
Import Server.

(** C2, counterexample.  The query [code=&state=state] carries a [code]
    parameter and the [state] given at construction, so the claim has the
    promise fulfilled with the (empty) value of [code]; the listener rejects
    with [MissingCodeError]. *)
Lemma empty_code_is_rejected :
  let params := [("code", ""); ("state", "state")] in
  let req := {| req_origin := None;
                req_url := Some {| pathname := "/"; searchParams := params |} |} in
  (has params "error" && has params "error_description" = false) /\
  has params "code" = true /\ get params "code" = Some "" /\
  get params "state" = Some "state" /\
  waitForAuthorization (fst (requestListener req (new "state"))) <> PromiseFulfilled "" /\
  waitForAuthorization (fst (requestListener req (new "state"))) = PromiseRejected MissingCodeError.
Proof. vm_compute. repeat split; discriminate. Qed.

(** C2, amended.  For a request to the callback path on a listener whose
    promise is still pending, in this order: [error] and [error_description] both present reject with
    [AuthError], whose message is "<error>: <error_description>"; otherwise a
    [code] that is absent or empty rejects with [MissingCodeError]; otherwise a
    [state] that is absent or empty rejects with [MissingStateError]; otherwise
    a [state] different from the one given at construction rejects with
    [InvalidStateError]; otherwise the promise is fulfilled with [code]. *)
Theorem redirect_outcome_order (srv : AuthSSOServer) (req : Request)
    (params : list (string * string)) :
  req_url req = Some {| pathname := "/"; searchParams := params |} ->
  waitForAuthorization srv = PromisePending ->
  let p := waitForAuthorization (fst (requestListener req srv)) in
  (forall e d, get params "error" = Some e -> get params "error_description" = Some d ->
     p = PromiseRejected (AuthError e d) /\ err_message (AuthError e d) = e +:+ ": " +:+ d)
  /\ (get params "error" = None \/ get params "error_description" = None ->
      (get params "code" = None \/ get params "code" = Some "" ->
         p = PromiseRejected MissingCodeError)
      /\ (forall c, get params "code" = Some c -> c <> "" ->
            (get params "state" = None \/ get params "state" = Some "" ->
               p = PromiseRejected MissingStateError)
            /\ (forall s, get params "state" = Some s -> s <> "" ->
                  (s <> state srv -> p = PromiseRejected InvalidStateError)
                  /\ (s = state srv -> p = PromiseFulfilled c)))).
Proof.
  intros Hurl Hpending p. subst p.
  destruct (requestListener_callback req params srv Hurl) as (-> & _).
  unfold waitForAuthorization in *. unfold handleAuthentication. split.
  - intros e d He Hd.
    assert (has params "error" = true) as -> by (apply has_get; eauto).
    assert (has params "error_description" = true) as -> by (apply has_get; eauto).
    cbn [andb]. rewrite He, Hd. split; [by apply settle_pending | reflexivity].
  - intros Hnone.
    assert (has params "error" && has params "error_description" = false) as ->.
    { apply andb_false_iff. destruct Hnone as [H|H]; [left|right]; by apply has_false_get. }
    unfold handleToken. split.
    + intros [-> | ->]; by apply settle_pending.
    + intros c Hc Hcne. rewrite Hc.
      assert (falsy (Some c) = false) as -> by (apply falsy_false; eauto).
      split.
      * intros [-> | ->]; by apply settle_pending.
      * intros s Hs Hsne. rewrite Hs.
        assert (falsy (Some s) = false) as -> by (apply falsy_false; eauto).
        cbn [from_option id]. split.
        -- intros Hne. destruct (String.eqb_spec s (state srv)); [contradiction|].
           by apply settle_pending.
        -- intros ->. rewrite String.eqb_refl. by apply settle_pending.
Qed.

Lemma redirect_outcome_order_witness :
  waitForAuthorization
    (fst (requestListener (Demo.query [("code", "C"); ("state", "state")]) (new "state")))
  = PromiseFulfilled "C".
Proof.
  destruct (redirect_outcome_order (new "state")
              (Demo.query [("code", "C"); ("state", "state")])
              [("code", "C"); ("state", "state")] eq_refl eq_refl) as [_ H].
  destruct (H (or_introl eq_refl)) as [_ Hcode].
  destruct (Hcode "C" eq_refl ltac:(discriminate)) as [_ Hstate].
  destruct (Hstate "state" eq_refl ltac:(discriminate)) as [_ Hok].
  exact (Hok eq_refl).
Defined.

(** C3.  Over any sequence of requests served by one listener the promise of
    [waitForAuthorization] settles at most once: once it is settled no later
    request changes it, the first request to [/] leaves it settled and the
    promise after that request is the final one, and every request to [/],
    early or late, is answered with status 200. *)
Theorem authorization_settles_once (reqs : list Request) (srv : AuthSSOServer) :
  (forall pre post, reqs = pre ++ post ->
     waitForAuthorization (fst (serve pre srv)) <> PromisePending ->
     waitForAuthorization (fst (serve reqs srv)) = waitForAuthorization (fst (serve pre srv)))
  /\ (forall pre req post, reqs = pre ++ req :: post ->
        Forall (fun r => ~ to_callback r) pre -> to_callback req ->
        waitForAuthorization (fst (requestListener req srv)) <> PromisePending /\
        waitForAuthorization (fst (serve reqs srv))
        = waitForAuthorization (fst (requestListener req srv)))
  /\ (forall i req res, reqs !! i = Some req -> snd (serve reqs srv) !! i = Some res ->
        to_callback req -> res_status res = Some 200)
  /\ length (snd (serve reqs srv)) = length reqs.
Proof.
  repeat split.
  - intros pre post -> Hset. rewrite serve_app. cbn [fst]. by rewrite serve_settled.
  - destruct H1 as [params Hp].
    destruct (requestListener_callback req params srv Hp) as (-> & _).
    apply handleAuthentication_settles.
  - subst reqs. destruct H1 as [params Hp].
    rewrite serve_app. cbn [fst]. rewrite (serve_others pre) by assumption.
    rewrite serve_cons. cbn [fst]. rewrite serve_settled; [reflexivity|].
    destruct (requestListener_callback req params srv Hp) as (-> & _).
    apply handleAuthentication_settles.
  - intros i req res. apply serve_status.
  - apply serve_length.
Qed.

Lemma authorization_settles_once_witness :
  waitForAuthorization
    (fst (serve [Demo.query [("code", "C"); ("state", "state")];
                 Demo.query [("error", "foo"); ("error_description", "bar")]]
            (new "state")))
  = PromiseFulfilled "C"
  /\ res_status (snd (requestListener
                        (Demo.query [("error", "foo"); ("error_description", "bar")])
                        (fst (requestListener
                                (Demo.query [("code", "C"); ("state", "state")])
                                (new "state")))))
     = Some 200.
Proof.
  pose (first := Demo.query [("code", "C"); ("state", "state")]).
  pose (second := Demo.query [("error", "foo"); ("error_description", "bar")]).
  destruct (authorization_settles_once [first; second] (new "state"))
    as (Hkeep & _ & Hstatus & _).
  split.
  - refine (eq_trans (Hkeep [first] [second] eq_refl _) eq_refl).
    vm_compute. discriminate.
  - apply (Hstatus 1%nat second); [reflexivity | reflexivity |].
    eexists; reflexivity.
Defined.

Lemma append_slash_neq (s : string) : s <> s +:+ "/".
Proof.
  induction s as [|a s IH]; [discriminate|].
  change (String a s +:+ "/") with (String a (s +:+ "/")).
  intros [= H]. by apply IH.
Qed.

(** C8, counterexample.  After a successful [start()] on port 60821 the
    redirect URI is [http://127.0.0.1:60821]; it is not the claimed
    [http://127.0.0.1:60821/]. *)
Lemma redirectUri_60821_has_no_slash :
  let started := start (OnListening (Some (AddressInfo 60821))) (new "state") in
  snd started = None /\
  redirectUri (fun _ => NaN) (fst started) = inl "http://127.0.0.1:60821" /\
  redirectUri (fun _ => NaN) (fst started) <> inl "http://127.0.0.1:60821/".
Proof. vm_compute. repeat split. discriminate. Qed.

(** C8, amended.  After [start()] succeeds the listener has an address and
    [redirectUri] is [http://127.0.0.1:<port>] for the bound port, with no
    path and no trailing slash. *)
Theorem redirectUri_after_start (parseInt : string -> JsNumber) (ev : ListenEvent)
    (srv srv' : AuthSSOServer) :
  start ev srv = (srv', None) ->
  exists addr, address srv' = Some addr /\
    match addr with
    | AddressInfo port =>
        redirectUri parseInt srv' = inl ("http://127.0.0.1" +:+ ":" +:+ numberToString (Num port))
        /\ redirectUri parseInt srv'
           <> inl ("http://127.0.0.1" +:+ ":" +:+ numberToString (Num port) +:+ "/")
    | AddressString a =>
        redirectUri parseInt srv' = inl ("http://127.0.0.1" +:+ ":" +:+ numberToString (parseInt a))
    end.
Proof.
  unfold start. destruct (listening srv); [discriminate|].
  destruct ev as [[addr|]| |]; try discriminate.
  intros [= <-]. exists addr. split; [reflexivity|].
  unfold redirectUri, getPort. simpl. destruct addr as [port|a]; [|reflexivity].
  split; [reflexivity|].
  intros [= H]. by apply append_slash_neq in H.
Qed.

Lemma redirectUri_after_start_witness :
  redirectUri (fun _ => NaN)
    (fst (start (OnListening (Some (AddressInfo 60821))) (new "state")))
  = inl "http://127.0.0.1:60821".
Proof.
  destruct (redirectUri_after_start (fun _ => NaN)
              (OnListening (Some (AddressInfo 60821))) (new "state") _ eq_refl)
    as (addr & Haddr & H).
  injection Haddr as <-. destruct H as [-> _]. reflexivity.
Defined.

(** C9.  A query with [error] but no [error_description], or the other way
    round, is not a provider error: it is handled by the code/state checks
    alone.  So [error=foo&code=C&state=S] on a listener constructed with [S]
    fulfils the promise with [C] (for a non-empty code and state), and
    [error=foo] alone rejects with [MissingCodeError], not with an
    [AuthError]. *)
Theorem lone_error_falls_through (params : list (string * string)) (srv : AuthSSOServer) :
  (get params "error" = None \/ get params "error_description" = None ->
     handleAuthentication params srv = handleToken params srv)
  /\ (forall C S, C <> "" -> S <> "" ->
        waitForAuthorization
          (fst (requestListener
                  (Demo.query [("error", "foo"); ("code", C); ("state", S)]) (new S)))
        = PromiseFulfilled C)
  /\ (forall st,
        waitForAuthorization (fst (requestListener (Demo.query [("error", "foo")]) (new st)))
        = PromiseRejected MissingCodeError
        /\ forall e d, MissingCodeError <> AuthError e d).
Proof.
  split; [|split].
  - intros Hnone. unfold handleAuthentication.
    assert (has params "error" && has params "error_description" = false) as ->; [|reflexivity].
    apply andb_false_iff. destruct Hnone as [H|H]; [left|right]; by apply has_false_get.
  - intros C S HC HS. cbn.
    unfold handleAuthentication, handleToken. cbn.
    destruct (String.eqb_spec C ""); [contradiction|].
    destruct (String.eqb_spec S ""); [contradiction|].
    cbn. by rewrite String.eqb_refl.
  - intros st. split; [reflexivity|]. intros e d. discriminate.
Qed.

Lemma lone_error_falls_through_witness :
  handleAuthentication [("error", "foo"); ("code", "C"); ("state", "state")] (new "state")
  = handleToken [("error", "foo"); ("code", "C"); ("state", "state")] (new "state")
  /\ waitForAuthorization
       (fst (requestListener
               (Demo.query [("error", "foo"); ("code", "C"); ("state", "state")])
               (new "state")))
     = PromiseFulfilled "C".
Proof.
  destruct (lone_error_falls_through
              [("error", "foo"); ("code", "C"); ("state", "state")] (new "state"))
    as (Hfall & Hex & _).
  split.
  - apply Hfall. right. reflexivity.
  - apply Hex; discriminate.
Defined.

End ServerClaims.

(** ** Expiry *)

(** C6.  With the clock at [now], [isExpired] answers true exactly when
    [now + 60000 >= expiresAt]: true for every [expiresAt] in the past or at
    most 60000 ms ahead, false for every [expiresAt] more than 60000 ms ahead.
    It changes nothing. *)
Theorem isExpired_buffer (env : Env) (w : World) {A : Type} `{Expirable A} (record : A) :
  let now := clockNow env w in
  exists b, isExpired env record w = (Returned b, w)
    /\ (b = true <-> now + 60000 >= expiresAt record)
    /\ (expiresAt record <= now -> b = true)
    /\ (now <= expiresAt record <= now + 60000 -> b = true)
    /\ (expiresAt record > now + 60000 -> b = false).
Proof.
  intros now. unfold isExpired, reads, expirationBufferMs. fold now.
  eexists. split; [reflexivity|].
  destruct (Z.geb_spec (now + 60000) (expiresAt record)); repeat split; intros; try lia; congruence.
Qed.

Lemma isExpired_buffer_witness :
  isExpired (Demo.env 5000 Demo.healthy Hangs Hangs []) (Demo.tok "A" 65000 None)
    (Demo.world ∅ ∅)
  = (Returned true, Demo.world ∅ ∅)
  /\ isExpired (Demo.env 5000 Demo.healthy Hangs Hangs []) (Demo.tok "A" 65001 None)
       (Demo.world ∅ ∅)
     = (Returned false, Demo.world ∅ ∅).
Proof.
  split.
  - destruct (isExpired_buffer (Demo.env 5000 Demo.healthy Hangs Hangs []) (Demo.world ∅ ∅)
                (Demo.tok "A" 65000 None)) as (b & -> & _ & _ & Hnear & _).
    rewrite Hnear; [reflexivity | vm_compute; split; discriminate].
  - destruct (isExpired_buffer (Demo.env 5000 Demo.healthy Hangs Hangs []) (Demo.world ∅ ∅)
                (Demo.tok "A" 65001 None)) as (b & -> & _ & _ & _ & Hfar).
    rewrite Hfar; [reflexivity | reflexivity].
Defined.

(** ** Computations that stay away from the browser flow *)

Section NonInteractive.

Lemma ni_ret {A} (a : A) : non_interactive (ret a).
Proof. intros w. exists []. simpl. by rewrite app_nil_r. Qed.

Lemma ni_throw {A} (err : JsError) : non_interactive (@throw A err).
Proof. intros w. exists []. simpl. by rewrite app_nil_r. Qed.

Lemma ni_reads {A} (f : World -> A) : non_interactive (reads f).
Proof. intros w. exists []. simpl. by rewrite app_nil_r. Qed.

Lemma ni_tell (ev : Event) : interactive ev = false -> non_interactive (tell ev).
Proof. intros H w. exists [ev]. simpl. repeat split. by constructor. Qed.

Lemma ni_bind {A B} (m : M A) (k : A -> M B) :
  non_interactive m -> (forall a, non_interactive (k a)) -> non_interactive (bind m k).
Proof.
  intros Hm Hk w. unfold bind. destruct (Hm w) as (t1 & Ht1 & Hq1 & Hs1).
  destruct (m w) as [[a| |] w1]; simpl in *; [|by exists t1..].
  destruct (Hk a w1) as (t2 & Ht2 & Hq2 & Hs2).
  exists (t1 ++ t2). rewrite Ht2, Ht1, Hs2, Hs1, app_assoc.
  repeat split. by apply Forall_app.
Qed.

Lemma ni_try_catch {A} (body : M A) (handler : JsError -> M A) :
  non_interactive body -> (forall err, non_interactive (handler err)) ->
  non_interactive (try_catch body handler).
Proof.
  intros Hm Hk w. unfold try_catch. destruct (Hm w) as (t1 & Ht1 & Hq1 & Hs1).
  destruct (body w) as [[a|err|] w1]; simpl in *; [by exists t1| |by exists t1].
  destruct (Hk err w1) as (t2 & Ht2 & Hq2 & Hs2).
  exists (t1 ++ t2). rewrite Ht2, Ht1, Hs2, Hs1, app_assoc.
  repeat split. by apply Forall_app.
Qed.

Lemma ni_allSettled {A B} (p : M A) (q : M B) :
  non_interactive p -> non_interactive q -> non_interactive (allSettled p q).
Proof.
  intros Hp Hq w. unfold allSettled. destruct (Hp w) as (t1 & Ht1 & Hq1 & Hs1).
  destruct (p w) as [o1 w1]. destruct (Hq w1) as (t2 & Ht2 & Hq2 & Hs2).
  destruct (q w1) as [o2 w2]. simpl in *.
  exists (t1 ++ t2).
  assert (trace w2 = trace w ++ t1 ++ t2) by (by rewrite Ht2, Ht1, app_assoc).
  assert (authServer w2 = authServer w) by congruence.
  assert (Forall (fun ev => interactive ev = false) (t1 ++ t2)) by (by apply Forall_app).
  destruct o1, o2; simpl; auto.
Qed.

Lemma ni_cache_call (env : Env) {A} (ev : Event) (answer : World -> A)
    (effect : World -> World) :
  interactive ev = false ->
  (forall w, trace (effect w) = trace w /\ authServer (effect w) = authServer w) ->
  non_interactive (SsoAccessTokenProvider.cache_call env ev answer effect).
Proof.
  intros Hev Heff w. unfold SsoAccessTokenProvider.cache_call. exists [ev].
  destruct (Heff w) as [Ht Hs].
  destruct (cacheCall env ev w); simpl; rewrite ?Ht, ?Hs; repeat split; by constructor.
Qed.

Lemma ni_oidc_createToken (env : Env) (req : CreateTokenRequest) :
  non_interactive (SsoAccessTokenProvider.oidc_createToken env req).
Proof. intros w. exists [OidcCreateToken req]. simpl. repeat split. by constructor. Qed.

Lemma ni_isExpired (env : Env) {A} `{Expirable A} (x : A) : non_interactive (isExpired env x).
Proof. apply ni_reads. Qed.

Lemma ni_invalidate (env : Env) (profile : SsoProfile) :
  non_interactive (SsoAccessTokenProvider.invalidate env profile).
Proof.
  unfold SsoAccessTokenProvider.invalidate.
  apply ni_bind; [by apply ni_tell|]. intros _.
  apply ni_bind; [|intros; apply ni_ret].
  apply ni_allSettled; by apply ni_cache_call.
Qed.

Lemma ni_refreshToken_catch (env : Env) (profile : SsoProfile) (err : JsError) :
  non_interactive (SsoAccessTokenProvider.refreshToken_catch env profile err).
Proof.
  unfold SsoAccessTokenProvider.refreshToken_catch.
  apply ni_bind; [|intros; apply ni_throw].
  destruct (negb (isNetworkError env err)); [|apply ni_ret].
  apply ni_bind.
  { unfold SsoAccessTokenProvider.getSessionDuration, SsoAccessTokenProvider.getSessionCreationDate.
    apply ni_bind; [apply ni_reads|]. intros [d|]; [apply ni_reads | apply ni_ret]. }
  intros duration. apply ni_bind; [by apply ni_tell|]. intros _.
  destruct (_ && _); [by apply ni_cache_call | apply ni_ret].
Qed.

Lemma ni_refreshToken (env : Env) (profile : SsoProfile) (tok : SsoToken)
    (reg : ClientRegistration) :
  non_interactive (SsoAccessTokenProvider.refreshToken env profile tok reg).
Proof.
  unfold SsoAccessTokenProvider.refreshToken, SsoAccessTokenProvider.refreshToken_try.
  apply ni_try_catch.
  - apply ni_bind; [apply ni_oidc_createToken|]. intros response.
    apply ni_bind; [by apply ni_cache_call | intros; apply ni_ret].
  - intros err. apply ni_refreshToken_catch.
Qed.

Lemma ni_getToken (env : Env) (profile : SsoProfile) :
  non_interactive (SsoAccessTokenProvider.getToken env profile).
Proof.
  unfold SsoAccessTokenProvider.getToken.
  apply ni_bind; [by apply ni_cache_call|]. intros data.
  apply ni_bind; [by apply ni_tell|]. intros _.
  destruct data as [data|]; [|apply ni_ret].
  apply ni_bind; [apply ni_isExpired|]. intros tokenExpired.
  destruct (negb tokenExpired); [apply ni_ret|].
  destruct (registration data) as [reg|].
  - apply ni_bind; [apply ni_isExpired|]. intros registrationExpired.
    destruct (_ && _).
    + apply ni_bind; [apply ni_refreshToken | intros; apply ni_ret].
    + apply ni_bind; [apply ni_invalidate | intros; apply ni_ret].
  - apply ni_bind; [apply ni_invalidate | intros; apply ni_ret].
Qed.

End NonInteractive.

(** ** The access-token provider *)

Section ProviderFacts.
Context (env : Env) (profile : SsoProfile).

Local Abbreviation key := (SsoAccessTokenProvider.tokenCacheKey profile).
Local Abbreviation regKey := (SsoAccessTokenProvider.registrationCacheKey profile).
Local Abbreviation cache_token_load := (SsoAccessTokenProvider.cache_token_load env).
Local Abbreviation cache_token_save := (SsoAccessTokenProvider.cache_token_save env).
Local Abbreviation cache_token_clear := (SsoAccessTokenProvider.cache_token_clear env).
Local Abbreviation cache_registration_clear := (SsoAccessTokenProvider.cache_registration_clear env).
Local Abbreviation invalidate := (SsoAccessTokenProvider.invalidate env profile).
Local Abbreviation getToken := (SsoAccessTokenProvider.getToken env profile).

Lemma token_load_world (k : string) (w : World) :
  snd (cache_token_load k w) = emit (TokenLoad k) w /\
  (forall data, fst (cache_token_load k w) = Returned data -> data = tokenCache w !! k).
Proof.
  unfold SsoAccessTokenProvider.cache_token_load, SsoAccessTokenProvider.cache_call.
  destruct (cacheCall env (TokenLoad k) w); simpl; split; try reflexivity;
    intros data [= <-] || (intros; discriminate). reflexivity.
Qed.

Lemma token_clear_world (k why : string) (w : World) :
  let r := cache_token_clear k why w in
  trace (snd r) = trace w ++ [TokenClear k why] /\
  registrationCache (snd r) = registrationCache w /\
  authServer (snd r) = authServer w /\
  (fst r = Returned tt /\ cacheCall env (TokenClear k why) w = Returned tt
     /\ tokenCache (snd r) = delete k (tokenCache w)
   \/ fst r <> Returned tt /\ cacheCall env (TokenClear k why) w <> Returned tt
     /\ tokenCache (snd r) = tokenCache w).
Proof.
  unfold SsoAccessTokenProvider.cache_token_clear, SsoAccessTokenProvider.cache_call.
  destruct (cacheCall env (TokenClear k why) w) as [[]| |]; simpl;
    repeat split; (left; repeat split; congruence) || (right; repeat split; congruence).
Qed.

Lemma registration_clear_world (k : string * option (list string)) (why : string) (w : World) :
  let r := cache_registration_clear k why w in
  trace (snd r) = trace w ++ [RegistrationClear k why] /\
  tokenCache (snd r) = tokenCache w /\
  authServer (snd r) = authServer w /\
  (fst r = Returned tt /\ cacheCall env (RegistrationClear k why) w = Returned tt
     /\ registrationCache (snd r) = delete k (registrationCache w)
   \/ fst r <> Returned tt /\ cacheCall env (RegistrationClear k why) w <> Returned tt
     /\ registrationCache (snd r) = registrationCache w).
Proof.
  unfold SsoAccessTokenProvider.cache_registration_clear, SsoAccessTokenProvider.cache_call.
  destruct (cacheCall env (RegistrationClear k why) w) as [[]| |]; simpl;
    repeat split; (left; repeat split; congruence) || (right; repeat split; congruence).
Qed.

(** [invalidate] in one equation: the log line, then both [clear] calls, the
    second made in the world the first one left, whatever its outcome. *)
Lemma invalidate_run (w : World) :
  let r1 := cache_token_clear key invalidateReason (emit (Log "info") w) in
  let r2 := cache_registration_clear regKey invalidateReason (snd r1) in
  invalidate w =
    (match fst r1, fst r2 with
     | Hangs, _ | _, Hangs => Hangs
     | _, _ => Returned tt
     end, snd r2).
Proof.
  intros r1 r2. unfold SsoAccessTokenProvider.invalidate, bind, tell, allSettled, ret.
  fold invalidateReason. fold r1. destruct r1 as [o1 w1] eqn:E1. subst r2. simpl.
  destruct (cache_registration_clear regKey invalidateReason w1) as [o2 w2].
  destruct o1, o2; reflexivity.
Qed.

(** What a run of [invalidate] does to the world. *)
Lemma invalidate_effects (w : World) :
  let r1 := cache_token_clear key invalidateReason (emit (Log "info") w) in
  let r2 := cache_registration_clear regKey invalidateReason (snd r1) in
  let final := snd (invalidate w) in
  final = snd r2
  /\ trace final = trace w ++ [Log "info"; TokenClear key invalidateReason;
                               RegistrationClear regKey invalidateReason]
  /\ (forall e, fst (invalidate w) <> Threw e)
  /\ (fst r1 <> Hangs -> fst r2 <> Hangs -> fst (invalidate w) = Returned tt)
  /\ (fst r1 = Returned tt -> tokenCache final !! key = None)
  /\ (fst r2 = Returned tt -> registrationCache final !! regKey = None).
Proof.
  intros r1 r2 final. subst final. rewrite invalidate_run. fold r1. fold r2. cbn [fst snd].
  destruct (token_clear_world key invalidateReason (emit (Log "info") w))
    as (Ht1 & Hr1 & _ & Hc1). fold r1 in Ht1, Hr1, Hc1.
  destruct (registration_clear_world regKey invalidateReason (snd r1))
    as (Ht2 & Hk2 & _ & Hc2). fold r2 in Ht2, Hk2, Hc2.
  split; [reflexivity|]. repeat split.
  - rewrite Ht2, Ht1. unfold emit; simpl. by rewrite <- !app_assoc.
  - intros e. destruct (fst r1), (fst r2); discriminate.
  - intros H1 H2. destruct (fst r1), (fst r2); congruence.
  - intros E. rewrite Hk2. destruct Hc1 as [(_ & _ & ->) | (Hne & _)]; [|contradiction].
    apply lookup_delete_eq.
  - intros E. destruct Hc2 as [(_ & _ & ->) | (Hne & _)]; [|contradiction].
    apply lookup_delete_eq.
Qed.

(** C5.  [invalidate] makes both [clear] calls before it awaits either, and
    awaits both: the registration call is made whatever the token call does, a
    rejected call never makes [invalidate] reject, [invalidate] returns as
    soon as both calls have settled and not before (while either call has not
    settled, [invalidate] has not returned), and each call that completes
    removes its entry whatever became of the other. *)
Theorem invalidate_clears_independently (w : World) :
  let r1 := cache_token_clear key invalidateReason (emit (Log "info") w) in
  let r2 := cache_registration_clear regKey invalidateReason (snd r1) in
  let final := snd (invalidate w) in
  trace final = trace w ++ [Log "info"; TokenClear key invalidateReason;
                            RegistrationClear regKey invalidateReason]
  /\ (forall e, fst (invalidate w) <> Threw e)
  /\ (fst r1 <> Hangs -> fst r2 <> Hangs -> fst (invalidate w) = Returned tt)
  /\ (fst r1 = Returned tt -> tokenCache final !! key = None)
  /\ (fst r2 = Returned tt -> registrationCache final !! regKey = None)
  /\ (forall e, fst r1 = Threw e -> fst r2 = Returned tt ->
        fst (invalidate w) = Returned tt /\ registrationCache final !! regKey = None)
  /\ (forall e, fst r2 = Threw e -> fst r1 = Returned tt ->
        fst (invalidate w) = Returned tt /\ tokenCache final !! key = None)
  /\ (fst r1 = Hangs -> fst (invalidate w) = Hangs)
  /\ (fst r2 = Hangs -> fst (invalidate w) = Hangs)
  /\ (fst (invalidate w) = Returned tt <-> fst r1 <> Hangs /\ fst r2 <> Hangs).
Proof.
  intros r1 r2 final.
  destruct (invalidate_effects w) as (_ & Htrace & Hnothrow & Hret & Htok & Hreg).
  fold r1 r2 final in Htrace, Hret, Htok, Hreg.
  assert (Hrun : fst (invalidate w) = match fst r1, fst r2 with
                                      | Hangs, _ | _, Hangs => Hangs
                                      | _, _ => Returned tt
                                      end).
  { rewrite invalidate_run. reflexivity. }
  split; [exact Htrace|]. split; [exact Hnothrow|]. split; [exact Hret|].
  split; [exact Htok|]. split; [exact Hreg|].
  split; [intros e H1 H2; split; [apply Hret; congruence | by apply Hreg]|].
  split; [intros e H2 H1; split; [apply Hret; congruence | by apply Htok]|].
  split; [intros H1; rewrite Hrun, H1; reflexivity|].
  split; [intros H2; rewrite Hrun, H2; by destruct (fst r1)|].
  rewrite Hrun. destruct (fst r1), (fst r2); split;
    try discriminate; try (intros [H1 H2]; congruence); intros _; split; discriminate.
Qed.

Local Abbreviation refresh := (SsoAccessTokenProvider.refreshToken env profile).
Local Abbreviation refreshToken_try := (SsoAccessTokenProvider.refreshToken_try env profile).
Local Abbreviation refreshToken_catch := (SsoAccessTokenProvider.refreshToken_catch env profile).
Local Abbreviation refreshRequest := SsoAccessTokenProvider.refreshRequest.
Local Abbreviation formatToken := (SsoAccessTokenProvider.formatToken profile).

Lemma refreshToken_try_run (tok : SsoToken) (reg : ClientRegistration) (w : World) :
  refreshToken_try tok reg w =
    let w1 := emit (OidcCreateToken (refreshRequest tok reg)) w in
    match oidcCreateToken env (refreshRequest tok reg) w with
    | Returned response =>
        let refreshed := formatToken response reg in
        match cacheCall env (TokenSave key refreshed) w1 with
        | Returned _ =>
            (Returned refreshed,
             emit (TokenSave key refreshed)
               (with_tokenCache (<[key := refreshed]> (tokenCache w1)) w1))
        | Threw err => (Threw err, emit (TokenSave key refreshed) w1)
        | Hangs => (Hangs, emit (TokenSave key refreshed) w1)
        end
    | Threw err => (Threw err, w1)
    | Hangs => (Hangs, w1)
    end.
Proof.
  unfold SsoAccessTokenProvider.refreshToken_try, SsoAccessTokenProvider.oidc_createToken,
    SsoAccessTokenProvider.cache_token_save, SsoAccessTokenProvider.cache_call, bind, ret.
  destruct (oidcCreateToken env (refreshRequest tok reg) w); try reflexivity.
  cbv zeta. by destruct (cacheCall env _ _).
Qed.


Lemma refreshToken_catch_run (err : JsError) (w : World) :
  refreshToken_catch err w =
    if isNetworkError env err then (Threw err, w)
    else
      let metric :=
        {| result := getTelemetryResult env err;
           reason := getTelemetryReason env err;
           requestId := getRequestId env err;
           sessionDuration := (fun d => dateNow env w - d) <$> sessionCreationDates w !! key;
           credentialType := "bearerToken";
           credentialSourceId :=
             if String.eqb (startUrl profile) builderIdStartUrl
             then "awsId" else "iamIdentityCenter" |} in
      let w2 := emit (EmitRefreshCredentials metric) w in
      if providerClientFault env err then
        match cache_token_clear key (clientFaultReason err) w2 with
        | (Returned _, w3) => (Threw err, w3)
        | (Threw err', w3) => (Threw err', w3)
        | (Hangs, w3) => (Hangs, w3)
        end
      else (Threw err, w2).
Proof.
  unfold SsoAccessTokenProvider.refreshToken_catch, providerClientFault, clientFaultReason.
  unfold bind at 1. destruct (isNetworkError env err); [reflexivity|]. cbn [negb].
  unfold SsoAccessTokenProvider.getSessionDuration, SsoAccessTokenProvider.getSessionCreationDate.
  unfold bind at 1. unfold bind at 1. unfold reads at 1.
  destruct (sessionCreationDates w !! key) as [d|] eqn:Hd; cbn [fmap option_fmap option_map];
    unfold reads, ret, bind at 1, tell; cbv zeta;
    (destruct (instanceof err ClassSSOOIDCServiceException && isClientFault env err);
     [ destruct (cache_token_clear _ _ _) as [[[]| |] w3]; reflexivity | reflexivity ]).
Qed.



Lemma isExpired_run {A} `{Expirable A} (x : A) (w : World) :
  isExpired env x w = (Returned (clockNow env w + expirationBufferMs >=? expiresAt x), w).
Proof. reflexivity. Qed.

(** [getToken] once [load] has answered with a record. *)
Lemma getToken_loaded (w w1 : World) (data : CachedRecord) :
  cache_token_load key w = (Returned (Some data), w1) ->
  getToken w =
    let w2 := emit (Log "info") w1 in
    if negb (clockNow env w2 + expirationBufferMs >=? expiresAt (token data))
    then (Returned (Some (token data)), w2)
    else
      match registration data with
      | Some reg =>
          if negb (clockNow env w2 + expirationBufferMs >=? expiresAt reg)
             && hasProps_refreshToken (token data)
          then bind (SsoAccessTokenProvider.refreshToken env profile (token data) reg)
                 (fun refreshed => ret (Some (token refreshed))) w2
          else bind invalidate (fun _ => ret None) w2
      | None => bind invalidate (fun _ => ret None) w2
      end.
Proof.
  intros Hload. unfold SsoAccessTokenProvider.getToken.
  unfold bind at 1. rewrite Hload.
  unfold bind at 1. unfold tell at 1.
  unfold bind at 1. rewrite isExpired_run. cbv zeta.
  destruct (negb (_ >=? expiresAt (token data))); [reflexivity|].
  destruct (registration data) as [reg|]; [|reflexivity].
  unfold bind at 1. rewrite isExpired_run.
  by destruct (negb _ && _).
Qed.

Lemma getToken_not_loaded (w : World) :
  (forall data, fst (cache_token_load key w) <> Returned (Some data)) ->
  getToken w = match fst (cache_token_load key w) with
               | Returned _ => (Returned None, emit (Log "info") (emit (TokenLoad key) w))
               | Threw err => (Threw err, emit (TokenLoad key) w)
               | Hangs => (Hangs, emit (TokenLoad key) w)
               end.
Proof.
  intros Hno. destruct (token_load_world key w) as [Hw _].
  unfold SsoAccessTokenProvider.getToken. unfold bind at 1.
  destruct (cache_token_load key w) as [[[data|]| |] w1]; simpl in *; subst w1; auto.
  by destruct (Hno data).
Qed.

Lemma isExpired_fst {A} `{Expirable A} (x : A) (w : World) (b : bool) :
  fst (isExpired env x w) = Returned b ->
  (clockNow env w + expirationBufferMs >=? expiresAt x) = b.
Proof. rewrite isExpired_run. by intros [= ->]. Qed.

(** C1.  Once [load] has answered with a cached record: an unexpired token is
    returned as it is and nothing else happens; an expired token with an
    unexpired registration and a refresh token is refreshed, and the result of
    [getToken] is the token of the refresh (the new token is returned and
    cached when the OIDC call and the save complete); an expired token without
    such a pair makes both [clear] calls of [invalidate] and nothing is
    returned, both entries being gone when the calls complete.  In every
    world, [getToken] makes no call of the interactive browser flow and leaves
    the listener alone. *)
Theorem getToken_cases (w : World) :
  (forall w1 data, cache_token_load key w = (Returned (Some data), w1) ->
     let w2 := emit (Log "info") w1 in
     (fst (isExpired env (token data) w2) = Returned false ->
        getToken w = (Returned (Some (token data)), w2))
     /\ (forall reg,
           fst (isExpired env (token data) w2) = Returned true ->
           registration data = Some reg ->
           fst (isExpired env reg w2) = Returned false ->
           is_Some (refreshToken (token data)) ->
           let r := SsoAccessTokenProvider.refreshToken env profile (token data) reg w2 in
           getToken w = (match fst r with
                         | Returned refreshed => Returned (Some (token refreshed))
                         | Threw err => Threw err
                         | Hangs => Hangs
                         end, snd r)
           /\ (exists t, trace (snd (getToken w))
                         = trace w2 ++ OidcCreateToken (refreshRequest (token data) reg) :: t)
           /\ (forall response,
                 oidcCreateToken env (refreshRequest (token data) reg) w2 = Returned response ->
                 cacheCall env (TokenSave key (formatToken response reg))
                   (emit (OidcCreateToken (refreshRequest (token data) reg)) w2) = Returned tt ->
                 fst (getToken w) = Returned (Some response)
                 /\ tokenCache (snd (getToken w)) !! key = Some (formatToken response reg)))
     /\ (fst (isExpired env (token data) w2) = Returned true ->
         (registration data = None
          \/ (exists reg, registration data = Some reg
                          /\ fst (isExpired env reg w2) = Returned true)
          \/ refreshToken (token data) = None) ->
         let r1 := cache_token_clear key invalidateReason (emit (Log "info") w2) in
         let r2 := cache_registration_clear regKey invalidateReason (snd r1) in
         trace (snd (getToken w))
         = trace w2 ++ [Log "info"; TokenClear key invalidateReason;
                        RegistrationClear regKey invalidateReason]
         /\ (forall e, fst (getToken w) <> Threw e)
         /\ (fst r1 <> Hangs -> fst r2 <> Hangs -> fst (getToken w) = Returned None)
         /\ (fst r1 = Returned tt -> tokenCache (snd (getToken w)) !! key = None)
         /\ (fst r2 = Returned tt -> registrationCache (snd (getToken w)) !! regKey = None)))
  /\ (exists t, trace (snd (getToken w)) = trace w ++ t
                /\ Forall (fun ev => interactive ev = false) t
                /\ authServer (snd (getToken w)) = authServer w).
Proof.
  split; [|apply ni_getToken].
  intros w1 data Hload w2. rewrite (getToken_loaded w w1 data Hload). fold w2. cbv zeta.
  split; [|split].
  - intros Hexp. apply isExpired_fst in Hexp. by rewrite Hexp.
  - intros reg Hexp Hreg Hregexp [rt Hrt].
    set (r := refresh (token data) reg w2).
    apply isExpired_fst in Hexp. apply isExpired_fst in Hregexp.
    rewrite Hexp, Hreg, Hregexp. unfold hasProps_refreshToken. rewrite Hrt. cbn [negb andb].
    assert (Hbind : bind (SsoAccessTokenProvider.refreshToken env profile (token data) reg)
                      (fun refreshed => ret (Some (token refreshed))) w2
                    = (match fst r with
                       | Returned refreshed => Returned (Some (token refreshed))
                       | Threw err => Threw err
                       | Hangs => Hangs
                       end, snd r)).
    { unfold bind, ret. subst r. by destruct (refresh (token data) reg w2) as [[| |] ?]. }
    rewrite Hbind. split; [reflexivity|]. cbn [fst snd]. subst r.
    unfold SsoAccessTokenProvider.refreshToken, try_catch.
    rewrite refreshToken_try_run. cbv zeta. split.
    + destruct (oidcCreateToken env _ w2) as [response|err|].
      * destruct (cacheCall env _ _) as [[]|err|]; cbn [fst snd].
        -- eexists [_]. unfold emit; simpl. by rewrite <- app_assoc.
        -- destruct (ni_refreshToken_catch env profile err
                       (emit (TokenSave key (formatToken response reg))
                          (emit (OidcCreateToken (refreshRequest (token data) reg)) w2)))
             as (t & -> & _).
           eexists (_ :: t). unfold emit; simpl. by rewrite <- !app_assoc.
        -- eexists [_]. unfold emit; simpl. by rewrite <- app_assoc.
      * destruct (ni_refreshToken_catch env profile err
                    (emit (OidcCreateToken (refreshRequest (token data) reg)) w2))
          as (t & -> & _).
        exists t. unfold emit; simpl. by rewrite <- !app_assoc.
      * exists []. reflexivity.
    + intros response -> ->. cbn [fst snd]. split; [reflexivity|].
      unfold emit, with_tokenCache; simpl. apply lookup_insert_eq.
  - intros Hexp Hnopair.
    set (r1 := cache_token_clear key invalidateReason (emit (Log "info") w2)).
    set (r2 := cache_registration_clear regKey invalidateReason (snd r1)).
    apply isExpired_fst in Hexp. rewrite Hexp. cbn [negb].
    assert (Hinv : (if negb (clockNow env w2 + expirationBufferMs >=? expiresAt (token data))
                    then (Returned (Some (token data)), w2)
                    else bind invalidate (fun _ => ret None) w2)
                   = bind invalidate (fun _ => @ret (option SsoToken) None) w2)
      by (by rewrite Hexp).
    assert (Hgoal : match registration data with
                    | Some reg =>
                        if negb (clockNow env w2 + expirationBufferMs >=? expiresAt reg)
                           && hasProps_refreshToken (token data)
                        then bind (SsoAccessTokenProvider.refreshToken env profile (token data) reg)
                               (fun refreshed => ret (Some (token refreshed))) w2
                        else bind invalidate (fun _ => ret None) w2
                    | None => bind invalidate (fun _ => ret None) w2
                    end = bind invalidate (fun _ => @ret (option SsoToken) None) w2).
    { destruct Hnopair as [-> | [(reg & -> & Hregexp) | Hrt]]; [reflexivity | |].
      - apply isExpired_fst in Hregexp. by rewrite Hregexp.
      - unfold hasProps_refreshToken. rewrite Hrt.
        destruct (registration data); [by rewrite andb_false_r | reflexivity]. }
    rewrite Hgoal. clear Hgoal Hinv.
    destruct (invalidate_effects w2) as (_ & Htrace & Hnothrow & Hret & Htok & Hreg).
    fold r1 r2 in Hret, Htok, Hreg.
    unfold bind, ret. destruct (invalidate w2) as [[[]|err|] w3] eqn:Hrun; cbn [fst snd] in *.
    + repeat split; auto; discriminate.
    + by destruct (Hnothrow err).
    + repeat split; auto; try discriminate.
      intros H1 H2. by specialize (Hret H1 H2).
Qed.

(** C10.  When [load] answers that there is no cached record, [getToken]
    returns nothing after the load and the log line alone: no [clear], no
    refresh, both caches as they were.  And whenever [getToken] makes any
    [clear] call, [load] had answered with a record whose token was expired
    at the check. *)
Theorem getToken_without_record (w : World) :
  (fst (cache_token_load key w) = Returned None ->
     fst (getToken w) = Returned None
     /\ trace (snd (getToken w)) = trace w ++ [TokenLoad key; Log "info"]
     /\ tokenCache (snd (getToken w)) = tokenCache w
     /\ registrationCache (snd (getToken w)) = registrationCache w)
  /\ (exists t, trace (snd (getToken w)) = trace w ++ t /\
        ((exists k why, In (TokenClear k why) t) \/
         (exists k why, In (RegistrationClear k why) t) ->
         exists data,
           fst (cache_token_load key w) = Returned (Some data) /\
           fst (isExpired env (token data) (emit (Log "info") (emit (TokenLoad key) w)))
           = Returned true)).
Proof.
  split.
  - intros Hnone.
    rewrite getToken_not_loaded by (intros data; congruence).
    rewrite Hnone. simpl. rewrite <- app_assoc. auto.
  - destruct (token_load_world key w) as [Hw _].
    destruct (cache_token_load key w) as [o w1] eqn:Hload. simpl in Hw. subst w1.
    assert (Hquiet : forall o', (forall data, o' <> Returned (Some data)) ->
              fst (cache_token_load key w) = o' ->
              exists t, trace (snd (getToken w)) = trace w ++ t /\
                ((exists k why, In (TokenClear k why) t) \/
                 (exists k why, In (RegistrationClear k why) t) -> False)).
    { intros o' Hno Ho'.
      rewrite getToken_not_loaded by (intros data; rewrite Ho'; apply Hno).
      rewrite Ho'.
      destruct o' as [a| |];
        [exists [TokenLoad key; Log "info"] | exists [TokenLoad key] ..];
        (split; [simpl; by rewrite <- ?app_assoc |]);
        intros [(k & why & Hin) | (k & why & Hin)]; simpl in Hin;
        repeat (destruct Hin as [Hin | Hin]; try discriminate); exact Hin. }
    destruct o as [[data|]| |].
    + destruct (clockNow env (emit (Log "info") (emit (TokenLoad key) w))
                + expirationBufferMs >=? expiresAt (token data)) eqn:Hexp.
      * destruct (ni_getToken env profile w) as (t & Ht & _).
        exists t. split; [exact Ht|]. intros _. exists data.
        rewrite isExpired_run. simpl. by rewrite Hexp.
      * rewrite (getToken_loaded w _ data Hload). cbv zeta. rewrite Hexp. simpl.
        exists [TokenLoad key; Log "info"]. split; [by rewrite <- app_assoc|].
        intros [(k & why & Hin) | (k & why & Hin)]; simpl in Hin;
          repeat (destruct Hin as [Hin | Hin]; try discriminate); destruct Hin.
    + destruct (Hquiet (Returned None)) as (t & Ht & Hno); [discriminate | by rewrite Hload |].
      exists t. split; [exact Ht|]. intros H. destruct (Hno H).
    + destruct (Hquiet (Threw err)) as (t & Ht & Hno); [discriminate | by rewrite Hload |].
      exists t. split; [exact Ht|]. intros H. destruct (Hno H).
    + destruct (Hquiet Hangs) as (t & Ht & Hno); [discriminate | by rewrite Hload |].
      exists t. split; [exact Ht|]. intros H. destruct (Hno H).
Qed.

End ProviderFacts.

Lemma invalidate_clears_independently_witness :
  let env := Demo.env 5000 Demo.brokenTokenClear Hangs Hangs [] in
  let stuck := Demo.env 5000
                 (fun ev => match ev with
                            | RegistrationClear _ _ => Hangs
                            | _ => Returned tt
                            end) Hangs Hangs [] in
  let w := Demo.world {[ Demo.key := Demo.cached (Demo.tok "A" 1000 None) None ]}
                      {[ Demo.regKey := Demo.reg 1000 ]} in
  (fst (SsoAccessTokenProvider.invalidate env Demo.profile w) = Returned tt /\
   registrationCache (snd (SsoAccessTokenProvider.invalidate env Demo.profile w)) !! Demo.regKey
   = None)
  /\ fst (SsoAccessTokenProvider.invalidate stuck Demo.profile w) = Hangs.
Proof.
  intros env stuck w. split.
  - destruct (invalidate_clears_independently env Demo.profile w)
      as (_ & _ & _ & _ & _ & Hfail & _).
    apply (Hfail Demo.diskError); reflexivity.
  - destruct (invalidate_clears_independently stuck Demo.profile w)
      as (_ & _ & _ & _ & _ & _ & _ & _ & Hstuck & _).
    exact (Hstuck eq_refl).
Defined.

Lemma getToken_cases_witness :
  let env := Demo.env 5000 Demo.healthy (Returned (Demo.tok "B" 9000000 None)) Hangs [] in
  let fresh := Demo.world
                 {[ Demo.key := Demo.cached (Demo.tok "A" 9000000 None) None ]} ∅ in
  let stale := Demo.world
                 {[ Demo.key := Demo.cached (Demo.tok "A" 1000 (Some "r"))
                                  (Some (Demo.reg 9000000)) ]} ∅ in
  let lost := Demo.world
                {[ Demo.key := Demo.cached (Demo.tok "A" 1000 None) (Some (Demo.reg 9000000)) ]}
                {[ Demo.regKey := Demo.reg 9000000 ]} in
  fst (SsoAccessTokenProvider.getToken env Demo.profile fresh)
  = Returned (Some (Demo.tok "A" 9000000 None))
  /\ fst (SsoAccessTokenProvider.getToken env Demo.profile stale)
     = Returned (Some (Demo.tok "B" 9000000 None))
  /\ fst (SsoAccessTokenProvider.getToken env Demo.profile lost) = Returned None
  /\ tokenCache (snd (SsoAccessTokenProvider.getToken env Demo.profile lost)) !! Demo.key = None.
Proof.
  intros env fresh stale lost. split; [|split; [|split]].
  - destruct (getToken_cases env Demo.profile fresh) as [H _].
    assert (Hload : SsoAccessTokenProvider.cache_token_load env Demo.key fresh
                    = (Returned (Some (Demo.cached (Demo.tok "A" 9000000 None) None)),
                       emit (TokenLoad Demo.key) fresh))
      by (vm_compute; reflexivity).
    destruct (H _ _ Hload) as (Hfresh & _).
    rewrite Hfresh; reflexivity.
  - destruct (getToken_cases env Demo.profile stale) as [H _].
    assert (Hload : SsoAccessTokenProvider.cache_token_load env Demo.key stale
                    = (Returned (Some (Demo.cached (Demo.tok "A" 1000 (Some "r"))
                                         (Some (Demo.reg 9000000)))),
                       emit (TokenLoad Demo.key) stale))
      by (vm_compute; reflexivity).
    destruct (H _ _ Hload) as (_ & Hstale & _).
    destruct (Hstale (Demo.reg 9000000) eq_refl eq_refl eq_refl (mk_is_Some _ _ eq_refl))
      as (_ & _ & Hok).
    apply (Hok (Demo.tok "B" 9000000 None)); reflexivity.
  - destruct (getToken_cases env Demo.profile lost) as [H _].
    assert (Hload : SsoAccessTokenProvider.cache_token_load env Demo.key lost
                    = (Returned (Some (Demo.cached (Demo.tok "A" 1000 None)
                                         (Some (Demo.reg 9000000)))),
                       emit (TokenLoad Demo.key) lost))
      by (vm_compute; reflexivity).
    destruct (H _ _ Hload) as (_ & _ & Hlost).
    destruct (Hlost eq_refl (or_intror (or_intror eq_refl))) as (_ & _ & Hnone & _).
    apply Hnone; discriminate.
  - destruct (getToken_cases env Demo.profile lost) as [H _].
    assert (Hload : SsoAccessTokenProvider.cache_token_load env Demo.key lost
                    = (Returned (Some (Demo.cached (Demo.tok "A" 1000 None)
                                         (Some (Demo.reg 9000000)))),
                       emit (TokenLoad Demo.key) lost))
      by (vm_compute; reflexivity).
    destruct (H _ _ Hload) as (_ & _ & Hlost).
    destruct (Hlost eq_refl (or_intror (or_intror eq_refl))) as (_ & _ & _ & Htok & _).
    apply Htok; reflexivity.
Defined.

Lemma getToken_without_record_witness :
  let env := Demo.env 5000 Demo.healthy Hangs Hangs [] in
  let w := Demo.world ∅ {[ Demo.regKey := Demo.reg 1000 ]} in
  fst (SsoAccessTokenProvider.getToken env Demo.profile w) = Returned None
  /\ registrationCache (snd (SsoAccessTokenProvider.getToken env Demo.profile w))
     = registrationCache w.
Proof.
  intros env w.
  destruct (getToken_without_record env Demo.profile w) as [H _].
  destruct (H eq_refl) as (Hnone & _ & _ & Hreg). by split.
Defined.



(** ** The interactive flow *)

Section AuthorizeFacts.
Context (env : Env) (profile : SsoProfile).

Lemma openSsoPortalLink_run (location : string) (w : World) :
  openSsoPortalLink env location w =
    let w1 := emit (OpenExternal location) w in
    match openExternal env location w with
    | Returned true => (Returned true, emit (EmitLoginWithBrowser "Succeeded") w1)
    | Returned false =>
        (Threw trustedDomainCancellationError,
         emit (EmitLoginWithBrowser (getTelemetryResult env trustedDomainCancellationError)) w1)
    | Threw err => (Threw err, emit (EmitLoginWithBrowser (getTelemetryResult env err)) w1)
    | Hangs => (Hangs, w1)
    end.
Proof.
  unfold openSsoPortalLink, aws_loginWithBrowser_run, openSsoUrl, vscode_openExternal, bind.
  by destruct (openExternal env location w) as [[|]| |].
Qed.

(** C7, amended.  When [openExternal] reports false, [openSsoPortalLink]
    throws the [ToolkitError] with code and name [TrustedDomainCancellation]
    and the [cancelled] flag set; it never returns false.  So [authorize],
    with the listener started, the authorization URL built and the listener
    closing without error, fails with that error: a typed cancellation,
    different from [AuthError], [MissingCodeError], [MissingStateError] and
    [InvalidStateError], and not the [CancellationError] with reason [user]
    of the branch after the call. *)
Theorem authorize_declined (reg : ClientRegistration) (w : World) (addr : Server.Address)
    (uri location : string) :
  let st := randomUUID env w in
  let w0 := with_authServer (Server.new st) w in
  let srv := fst (Server.start (listen env w0) (authServer w0)) in
  let w1 := emit (ServerListen Server.listenPort) (with_authServer srv w0) in
  let req := {| responseType := "code";
                auth_clientId := clientId reg;
                auth_redirectUri := uri;
                auth_scopes := default [] (scopes profile);
                auth_state := st;
                codeChallenge := sha256Base64url env (randomCodeVerifier env w1);
                codeChallengeMethod := "S256" |} in
  let w2 := emit (OidcAuthorize req) w1 in
  let w3 := emit (Log "console")
              (emit (EmitLoginWithBrowser (getTelemetryResult env trustedDomainCancellationError))
                 (emit (OpenExternal location) w2)) in
  (forall loc w', openExternal env loc w' = Returned false ->
     fst (openSsoPortalLink env loc w') = Threw trustedDomainCancellationError)
  /\ (forall loc w', fst (openSsoPortalLink env loc w') <> Returned false)
  /\ (listen env w0 = Server.OnListening (Some addr) ->
      Server.redirectUri (parseInt env) srv = inl uri ->
      oidcAuthorize env req w1 = Returned location ->
      openExternal env location w2 = Returned false ->
      closeError env w3 = None ->
      fst (SsoAccessTokenProvider.authorize env profile reg w)
      = Threw trustedDomainCancellationError)
  /\ (err_cancelled trustedDomainCancellationError = true
      /\ err_code trustedDomainCancellationError = Some trustedDomainCancellation
      /\ trustedDomainCancellationError <> CancellationError "user"
      /\ instanceof trustedDomainCancellationError ClassCancellationError = false
      /\ (forall e d, trustedDomainCancellationError <> AuthError e d)
      /\ trustedDomainCancellationError <> MissingCodeError
      /\ trustedDomainCancellationError <> MissingStateError
      /\ trustedDomainCancellationError <> InvalidStateError).
Proof.
  intros st w0 srv w1 req w2 w3. split; [|split; [|split]].
  - intros loc w' Hopen. rewrite openSsoPortalLink_run. cbv zeta. by rewrite Hopen.
  - intros loc w'. rewrite openSsoPortalLink_run. cbv zeta.
    by destruct (openExternal env loc w') as [[|]| |].
  - intros Hlisten Huri Hauth Hopen Hclose.
    assert (Hstart : Server.start (listen env w0) (authServer w0) = (srv, None)).
    { subst srv. rewrite Hlisten. reflexivity. }
    assert (Hlistening : Server.listening srv = true).
    { subst srv. rewrite Hlisten. reflexivity. }
    unfold SsoAccessTokenProvider.authorize.
    unfold bind at 1. unfold reads at 1. fold st.
    unfold bind at 1. fold w0.
    unfold try_finally, try_catch.
    unfold bind at 1. unfold SsoAccessTokenProvider.server_start at 1.
    rewrite Hstart. fold w1.
    unfold bind at 1. unfold SsoAccessTokenProvider.server_redirectUri at 1.
    change (authServer w1) with srv. rewrite Huri.
    unfold bind at 1. unfold reads at 1.
    unfold bind at 1. unfold SsoAccessTokenProvider.oidc_authorize at 1.
    fold req. rewrite Hauth. fold w2.
    unfold bind at 1. rewrite openSsoPortalLink_run. cbv zeta. rewrite Hopen.
    unfold bind at 1. unfold tell at 1. unfold throw at 1. fold w3.
    unfold SsoAccessTokenProvider.server_close.
    change (authServer w3) with srv. rewrite Hlistening, Hclose. reflexivity.
  - repeat split; try discriminate.
Qed.

End AuthorizeFacts.

(** C7, counterexample.  The browser-open call reports false; [authorize]
    fails, but not with a [CancellationError] of reason [user]. *)
Lemma authorize_declined_is_not_CancellationError :
  let env := Demo.env 5000 Demo.healthy Hangs (Returned false) [] in
  let w := Demo.world ∅ {[ Demo.regKey := Demo.reg 9000000 ]} in
  let r := SsoAccessTokenProvider.authorize env Demo.profile (Demo.reg 9000000) w in
  In (OpenExternal "https://oidc.example/authorize?state=7b0c1c3e-state") (trace (snd r))
  /\ openExternal env "https://oidc.example/authorize?state=7b0c1c3e-state" w = Returned false
  /\ fst r <> Threw (CancellationError "user")
  /\ fst r = Threw trustedDomainCancellationError
  /\ err_class trustedDomainCancellationError <> ClassCancellationError
  /\ err_agent trustedDomainCancellationError <> Some "user".
Proof. vm_compute. repeat split; try discriminate. auto 10. Qed.

Lemma authorize_declined_witness :
  fst (SsoAccessTokenProvider.authorize
         (Demo.env 5000 Demo.healthy Hangs (Returned false) []) Demo.profile
         (Demo.reg 9000000) (Demo.world ∅ ∅))
  = Threw trustedDomainCancellationError.
Proof.
  destruct (authorize_declined (Demo.env 5000 Demo.healthy Hangs (Returned false) [])
              Demo.profile (Demo.reg 9000000) (Demo.world ∅ ∅)
              (Server.AddressInfo 60821) "http://127.0.0.1:60821"
              "https://oidc.example/authorize?state=7b0c1c3e-state")
    as (_ & _ & H & _).
  apply H; reflexivity.
Defined.

(** * Further properties *)

(** ** The redirect listener: requests, headers, lifecycle *)

Section ListenerFacts.
Import Server.

Lemma reg_test_substring (origin : string) :
  reg_test origin = true <-> exists m, substring m 4 origin = "test".
Proof.
  unfold reg_test. destruct (index 0 "test" origin) as [m|] eqn:E.
  - split; [intros _ | reflexivity]. exists m. by apply index_correct1 in E.
  - split; [discriminate|]. intros [m Hm]. exfalso.
    apply (index_correct3 0 m "test" origin E); [discriminate | lia | exact Hm].
Qed.

Lemma state_settle (p : PromiseState) (srv : AuthSSOServer) : state (settle p srv) = state srv.
Proof. unfold settle. by destruct (authenticationPromise srv). Qed.

(** A pending promise is fulfilled by [handleAuthentication] only through the
    last line of [handleToken]. *)
Lemma handleAuthentication_fulfilled (params : list (string * string)) (srv : AuthSSOServer)
    (c : string) :
  authenticationPromise srv = PromisePending ->
  authenticationPromise (handleAuthentication params srv) = PromiseFulfilled c ->
  get params "code" = Some c /\ c <> "" /\
  get params "state" = Some (state srv) /\ state srv <> "" /\
  (get params "error" = None \/ get params "error_description" = None).
Proof.
  intros Hpending. unfold handleAuthentication, handleToken, resolve, reject.
  destruct (has params "error" && has params "error_description") eqn:Herr.
  { rewrite settle_pending by exact Hpending. discriminate. }
  destruct (falsy (get params "code")) eqn:Hcode.
  { rewrite settle_pending by exact Hpending. discriminate. }
  destruct (falsy (get params "state")) eqn:Hstate.
  { rewrite settle_pending by exact Hpending. discriminate. }
  apply falsy_false in Hcode as (c' & Hc & Hcne).
  apply falsy_false in Hstate as (s & Hs & Hsne).
  rewrite Hc, Hs. cbn [from_option id].
  destruct (String.eqb_spec s (state srv)) as [->|Hne]; cbn [negb];
    rewrite settle_pending by exact Hpending; [|discriminate].
  intros [= ->]. repeat split; auto.
  apply andb_false_iff in Herr. destruct Herr as [H|H]; [left|right]; by apply has_false_get.
Qed.

Lemma serve_fulfilled (reqs : list Request) (srv : AuthSSOServer) (c : string) :
  authenticationPromise srv = PromisePending ->
  authenticationPromise (fst (serve reqs srv)) = PromiseFulfilled c ->
  exists req params,
    In req reqs /\
    req_url req = Some {| pathname := "/"; searchParams := params |} /\
    get params "code" = Some c /\ c <> "" /\
    get params "state" = Some (state srv) /\ state srv <> "" /\
    (get params "error" = None \/ get params "error_description" = None).
Proof.
  revert srv. induction reqs as [|req rest IH]; intros srv Hpending Hdone.
  { simpl in Hdone. congruence. }
  rewrite serve_cons in Hdone. cbn [fst] in Hdone.
  destruct (req_url req) as [[path params]|] eqn:Hurl.
  - destruct (String.eqb_spec path "/") as [->|Hne].
    + destruct (requestListener_callback req params srv Hurl) as (Hsrv & _).
      rewrite Hsrv in Hdone.
      rewrite serve_settled in Hdone by apply handleAuthentication_settles.
      exists req, params. split; [by left|]. split; [exact Hurl|].
      by apply handleAuthentication_fulfilled.
    + rewrite requestListener_other in Hdone.
      * destruct (IH srv Hpending Hdone) as (r & ps & Hin & H). exists r, ps. split; [by right | exact H].
      * intros [ps Hps]. rewrite Hurl in Hps. congruence.
  - rewrite requestListener_other in Hdone.
    + destruct (IH srv Hpending Hdone) as (r & ps & Hin & H). exists r, ps. split; [by right | exact H].
    + intros [ps Hps]. rewrite Hurl in Hps. discriminate.
Qed.

(** X1.  A request that is not for the callback path [/] (another path, or
    no url at all) changes nothing and is never answered: no status, no body.
    A listener that only receives such requests stays pending. *)
Theorem other_requests_are_ignored (req : Request) (reqs : list Request) (srv : AuthSSOServer) :
  (~ to_callback req ->
     fst (requestListener req srv) = srv /\
     res_status (snd (requestListener req srv)) = None /\
     res_body (snd (requestListener req srv)) = None)
  /\ (Forall (fun r => ~ to_callback r) reqs ->
        waitForAuthorization (fst (serve reqs srv)) = waitForAuthorization srv).
Proof.
  split.
  - intros Hother. split; [by apply requestListener_other|].
    unfold requestListener.
    destruct (req_url req) as [[path params]|] eqn:Hurl; cbn [pathname searchParams].
    + destruct (String.eqb_spec path oauthCallback) as [->|Hne].
      * exfalso. apply Hother. by exists params.
      * destruct (reg_test _); cbn; auto.
    + destruct (reg_test _); cbn; auto.
  - intros Hall. by rewrite serve_others.
Qed.

Lemma other_requests_are_ignored_witness :
  let req := {| req_origin := None;
                req_url := Some {| pathname := "/favicon.ico"; searchParams := [] |} |} in
  fst (requestListener req (new "state")) = new "state" /\
  res_status (snd (requestListener req (new "state"))) = None.
Proof.
  intros req.
  destruct (other_requests_are_ignored req [] (new "state")) as [H _].
  destruct H as (Hsrv & Hstatus & _).
  - intros [params Hp]. discriminate.
  - split; [exact Hsrv | exact Hstatus].
Defined.

(** X2.  Every response carries [Access-Control-Allow-Methods: GET];
    [Access-Control-Allow-Origin: *] is set exactly when the [Origin] header
    contains [test] (a missing header counts as empty); no other header is
    set. *)
Theorem cors_headers (req : Request) (srv : AuthSSOServer) :
  let headers := res_headers (snd (requestListener req srv)) in
  let origin := default "" (req_origin req) in
  In ("Access-Control-Allow-Methods", "GET") headers
  /\ (In ("Access-Control-Allow-Origin", "*") headers <-> exists m, substring m 4 origin = "test")
  /\ (forall name value, In (name, value) headers ->
        (name, value) = ("Access-Control-Allow-Methods", "GET") \/
        (name, value) = ("Access-Control-Allow-Origin", "*")).
Proof.
  intros headers origin. subst headers.
  pose proof (reg_test_substring origin) as Htest.
  assert (Hheaders : res_headers (snd (requestListener req srv))
                     = if reg_test origin
                       then [("Access-Control-Allow-Origin", "*");
                             ("Access-Control-Allow-Methods", "GET")]
                       else [("Access-Control-Allow-Methods", "GET")]).
  { unfold requestListener. fold origin.
    destruct (req_url req) as [[path params]|]; cbn [pathname searchParams];
      [destruct (String.eqb path oauthCallback)|];
      destruct (reg_test origin); reflexivity. }
  rewrite Hheaders. destruct (reg_test origin); simpl.
  - split; [auto|]. split.
    + split; [intros _; by apply Htest | auto].
    + intros name value [H|[H|[]]]; auto.
  - split; [auto|]. split.
    + split.
      * intros [H|[]]. discriminate.
      * intros H. apply Htest in H. discriminate.
    + intros name value [H|[]]; auto.
Qed.

(** X3.  The response to a request for [/] does not depend on the query or
    on the listener: a redirect carrying an error or a wrong state is answered
    like a valid one, with status 200 and the body [Success!]. *)
Theorem response_hides_outcome (req1 req2 : Request) (srv1 srv2 : AuthSSOServer) :
  to_callback req1 -> to_callback req2 -> req_origin req1 = req_origin req2 ->
  snd (requestListener req1 srv1) = snd (requestListener req2 srv2) /\
  res_status (snd (requestListener req1 srv1)) = Some 200 /\
  res_body (snd (requestListener req1 srv1)) = Some "Success!".
Proof.
  intros [p1 H1] [p2 H2] Horigin. unfold requestListener.
  rewrite H1, H2, Horigin. cbn [pathname]. rewrite String.eqb_refl.
  by destruct (reg_test _).
Qed.

Lemma response_hides_outcome_witness :
  snd (requestListener (Demo.query [("error", "access_denied"); ("error_description", "no")])
         (new "state"))
  = snd (requestListener (Demo.query [("code", "C"); ("state", "state")]) (new "state")).
Proof.
  apply (response_hides_outcome _ _ (new "state") (new "state")).
  - eexists; reflexivity.
  - eexists; reflexivity.
  - reflexivity.
Defined.

(** X4.  While a listener is listening, [start()] throws [Server already
    started] and changes nothing; this is the only guard of [start()].  A
    successful [start()] was made on a listener that was not listening and
    leaves it listening at an address, its state and promise untouched, so
    every further [start()] made on it while it is still listening throws
    that error. *)
Theorem start_rejected_while_listening (ev : ListenEvent) (srv srv' : AuthSSOServer) :
  (forall s ev', listening s = true ->
     start ev' s = (s, Some (mkToolkitError ClassToolkitError
                               "AuthSSOServer: Server already started" None)))
  /\ (start ev srv = (srv', None) ->
      listening srv = false /\ listening srv' = true /\
      (exists addr, address srv' = Some addr) /\
      state srv' = state srv /\ authenticationPromise srv' = authenticationPromise srv /\
      forall ev', start ev' srv'
                  = (srv', Some (mkToolkitError ClassToolkitError
                                   "AuthSSOServer: Server already started" None))).
Proof.
  split.
  - intros s ev' Hl. unfold start. by rewrite Hl.
  - unfold start. destruct (listening srv) eqn:Hl; [discriminate|].
    destruct ev as [[addr|]| |]; try discriminate.
    intros [= <-]. cbn. repeat split; eauto.
Qed.

Lemma start_rejected_while_listening_witness :
  snd (start OnClose (fst (start (OnListening (Some (AddressInfo 60821))) (new "state"))))
  = Some (mkToolkitError ClassToolkitError "AuthSSOServer: Server already started" None).
Proof.
  destruct (start_rejected_while_listening (OnListening (Some (AddressInfo 60821)))
              (new "state")
              (fst (start (OnListening (Some (AddressInfo 60821))) (new "state"))))
    as [_ Hstarted].
  destruct (Hstarted eq_refl) as (_ & _ & _ & _ & _ & H).
  exact (f_equal snd (H OnClose)).
Defined.

(** X5.  [redirectUri] throws [MissingPortError], and nothing else, exactly
    when the listener has no address: before [start()], and after a [start()]
    that failed with an error or a close event. *)
Theorem redirectUri_needs_address (parseInt : string -> JsNumber) (srv : AuthSSOServer) :
  (redirectUri parseInt srv = inr MissingPortError <-> address srv = None)
  /\ (forall err, redirectUri parseInt srv = inr err -> err = MissingPortError)
  /\ (forall st, redirectUri parseInt (new st) = inr MissingPortError)
  /\ (forall ev err, address srv = None -> snd (start ev srv) = Some err ->
        err <> MissingPortError ->
        redirectUri parseInt (fst (start ev srv)) = inr MissingPortError).
Proof.
  assert (Hnew : forall s : AuthSSOServer,
             address s = None -> redirectUri parseInt s = inr MissingPortError).
  { intros s Hs. unfold redirectUri, getPort. by rewrite Hs. }
  split; [split|split; [|split]].
  - unfold redirectUri, getPort.
    destruct (address srv) as [[port|a]|]; [discriminate..|reflexivity].
  - apply Hnew.
  - unfold redirectUri, getPort.
    destruct (address srv) as [[port|a]|]; [discriminate..|]. by intros err [= <-].
  - intros st. by apply Hnew.
  - intros ev err Haddr Herr Hne. apply Hnew. unfold start in *.
    destruct (listening srv); [exact Haddr|].
    destruct ev as [[addr|]| |]; cbn in *; congruence.
Qed.

Lemma redirectUri_needs_address_witness :
  redirectUri (fun _ => NaN) (fst (start (OnError "EADDRINUSE") (new "state")))
  = inr MissingPortError.
Proof.
  destruct (redirectUri_needs_address (fun _ => NaN) (new "state")) as (_ & _ & _ & H).
  apply (H (OnError "EADDRINUSE")
           (mkToolkitError ClassToolkitError "AuthSSOServer: Server failed: EADDRINUSE" None)).
  - reflexivity.
  - reflexivity.
  - discriminate.
Defined.

(** X6.  A pending promise becomes fulfilled with a code only if one of the
    requests served was for [/], carried that code, non-empty, and the state
    the listener was constructed with, non-empty, and not both [error] and
    [error_description].  A listener constructed with the empty state is
    never fulfilled. *)
Theorem fulfilled_needs_matching_state (reqs : list Request) (srv : AuthSSOServer) (c : string) :
  waitForAuthorization srv = PromisePending ->
  waitForAuthorization (fst (serve reqs srv)) = PromiseFulfilled c ->
  state srv <> "" /\
  exists req params,
    In req reqs /\
    req_url req = Some {| pathname := "/"; searchParams := params |} /\
    get params "code" = Some c /\ c <> "" /\
    get params "state" = Some (state srv) /\
    (get params "error" = None \/ get params "error_description" = None).
Proof.
  intros Hpending Hdone.
  destruct (serve_fulfilled reqs srv c Hpending Hdone)
    as (req & params & Hin & Hurl & Hc & Hcne & Hs & Hsne & Herr).
  split; [exact Hsne|]. exists req, params. auto 10.
Qed.

Lemma fulfilled_needs_matching_state_witness :
  exists req params,
    In req [{| req_origin := None; req_url := None |};
            Demo.query [("code", "C"); ("state", "state")]] /\
    req_url req = Some {| pathname := "/"; searchParams := params |} /\
    get params "code" = Some "C" /\ get params "state" = Some "state".
Proof.
  destruct (fulfilled_needs_matching_state
              [{| req_origin := None; req_url := None |};
               Demo.query [("code", "C"); ("state", "state")]]
              (new "state") "C" eq_refl eq_refl)
    as (_ & req & params & Hin & Hurl & Hc & _ & Hs & _).
  exists req, params. split; [exact Hin|]. split; [exact Hurl|]. split; [exact Hc | exact Hs].
Defined.

End ListenerFacts.

(** ** The provider: which entries it touches *)

Section Frames.
Context (key : string) (regKey : string * option (list string)).

Lemma ko_same {A} (m : M A) :
  (forall w, tokenCache (snd (m w)) = tokenCache w /\
             registrationCache (snd (m w)) = registrationCache w /\
             sessionCreationDates (snd (m w)) = sessionCreationDates w) ->
  keeps_others key regKey m.
Proof. intros H w. destruct (H w) as (-> & -> & ->). auto. Qed.

Lemma ko_ret {A} (a : A) : keeps_others key regKey (ret a).
Proof. by apply ko_same. Qed.

Lemma ko_throw {A} (err : JsError) : keeps_others key regKey (@throw A err).
Proof. by apply ko_same. Qed.

Lemma ko_reads {A} (f : World -> A) : keeps_others key regKey (reads f).
Proof. by apply ko_same. Qed.

Lemma ko_tell (ev : Event) : keeps_others key regKey (tell ev).
Proof. by apply ko_same. Qed.

Lemma ko_bind {A B} (m : M A) (k : A -> M B) :
  keeps_others key regKey m -> (forall a, keeps_others key regKey (k a)) ->
  keeps_others key regKey (bind m k).
Proof.
  intros Hm Hk w. unfold bind. destruct (Hm w) as (Ht & Hr & Hs).
  destruct (m w) as [[a| |] w1]; simpl in *; auto.
  destruct (Hk a w1) as (Ht2 & Hr2 & Hs2).
  split; [|split].
  - intros k' Hk'. by rewrite Ht2, Ht.
  - intros k' Hk'. by rewrite Hr2, Hr.
  - by rewrite Hs2.
Qed.

Lemma ko_try_catch {A} (body : M A) (handler : JsError -> M A) :
  keeps_others key regKey body -> (forall err, keeps_others key regKey (handler err)) ->
  keeps_others key regKey (try_catch body handler).
Proof.
  intros Hm Hk w. unfold try_catch. destruct (Hm w) as (Ht & Hr & Hs).
  destruct (body w) as [[a|err|] w1]; simpl in *; auto.
  destruct (Hk err w1) as (Ht2 & Hr2 & Hs2).
  split; [|split].
  - intros k' Hk'. by rewrite Ht2, Ht.
  - intros k' Hk'. by rewrite Hr2, Hr.
  - by rewrite Hs2.
Qed.

Lemma ko_allSettled {A B} (p : M A) (q : M B) :
  keeps_others key regKey p -> keeps_others key regKey q ->
  keeps_others key regKey (allSettled p q).
Proof.
  intros Hp Hq w. unfold allSettled. destruct (Hp w) as (Ht & Hr & Hs).
  destruct (p w) as [o1 w1]. destruct (Hq w1) as (Ht2 & Hr2 & Hs2).
  destruct (q w1) as [o2 w2]. simpl in *.
  assert (forall k', k' <> key -> tokenCache w2 !! k' = tokenCache w !! k')
    by (intros k' Hk'; by rewrite Ht2, Ht).
  assert (forall k', k' <> regKey -> registrationCache w2 !! k' = registrationCache w !! k')
    by (intros k' Hk'; by rewrite Hr2, Hr).
  assert (sessionCreationDates w2 = sessionCreationDates w) by congruence.
  destruct o1, o2; simpl; auto.
Qed.

Lemma ko_cache_call (env : Env) {A} (ev : Event) (answer : World -> A)
    (effect : World -> World) :
  (forall w, (forall k, k <> key -> tokenCache (effect w) !! k = tokenCache w !! k) /\
             (forall k, k <> regKey -> registrationCache (effect w) !! k = registrationCache w !! k) /\
             sessionCreationDates (effect w) = sessionCreationDates w) ->
  keeps_others key regKey (SsoAccessTokenProvider.cache_call env ev answer effect).
Proof.
  intros Heff w. unfold SsoAccessTokenProvider.cache_call.
  destruct (cacheCall env ev w); simpl; auto.
Qed.

End Frames.

Section ProviderExtras.
Context (env : Env) (profile : SsoProfile).

Local Abbreviation key := (SsoAccessTokenProvider.tokenCacheKey profile).
Local Abbreviation regKey := (SsoAccessTokenProvider.registrationCacheKey profile).
Local Abbreviation invalidate := (SsoAccessTokenProvider.invalidate env profile).
Local Abbreviation getToken := (SsoAccessTokenProvider.getToken env profile).
Local Abbreviation refresh := (SsoAccessTokenProvider.refreshToken env profile).
Local Abbreviation refreshRequest := SsoAccessTokenProvider.refreshRequest.
Local Abbreviation formatToken := (SsoAccessTokenProvider.formatToken profile).

Lemma ko_token_clear (why : string) :
  keeps_others key regKey (SsoAccessTokenProvider.cache_token_clear env key why).
Proof.
  apply ko_cache_call. intros w. simpl. repeat split; auto.
  intros k Hk. by apply lookup_delete_ne.
Qed.

Lemma ko_registration_clear (why : string) :
  keeps_others key regKey (SsoAccessTokenProvider.cache_registration_clear env regKey why).
Proof.
  apply ko_cache_call. intros w. simpl. repeat split; auto.
  intros k Hk. rewrite lookup_delete_ne; auto.
Qed.

Lemma ko_token_save (data : CachedRecord) :
  keeps_others key regKey (SsoAccessTokenProvider.cache_token_save env key data).
Proof.
  apply ko_cache_call. intros w. simpl. repeat split; auto.
  intros k Hk. by apply lookup_insert_ne.
Qed.

Lemma ko_invalidate : keeps_others key regKey invalidate.
Proof.
  unfold SsoAccessTokenProvider.invalidate.
  apply ko_bind; [apply ko_tell|]. intros _.
  apply ko_bind; [|intros; apply ko_ret].
  apply ko_allSettled; [apply ko_token_clear | apply ko_registration_clear].
Qed.

Lemma ko_refreshToken (tok : SsoToken) (reg : ClientRegistration) :
  keeps_others key regKey (refresh tok reg).
Proof.
  unfold SsoAccessTokenProvider.refreshToken, SsoAccessTokenProvider.refreshToken_try,
    SsoAccessTokenProvider.refreshToken_catch.
  apply ko_try_catch.
  - apply ko_bind; [by apply ko_same|]. intros response.
    apply ko_bind; [apply ko_token_save | intros; apply ko_ret].
  - intros err. apply ko_bind; [|intros; apply ko_throw].
    destruct (negb (isNetworkError env err)); [|apply ko_ret].
    apply ko_bind.
    { unfold SsoAccessTokenProvider.getSessionDuration,
        SsoAccessTokenProvider.getSessionCreationDate.
      apply ko_bind; [apply ko_reads|]. intros [d|]; [apply ko_reads | apply ko_ret]. }
    intros duration. apply ko_bind; [apply ko_tell|]. intros _.
    destruct (_ && _); [apply ko_token_clear | apply ko_ret].
Qed.

Lemma ko_getToken : keeps_others key regKey getToken.
Proof.
  unfold SsoAccessTokenProvider.getToken.
  apply ko_bind; [by apply ko_cache_call|]. intros data.
  apply ko_bind; [apply ko_tell|]. intros _.
  destruct data as [data|]; [|apply ko_ret].
  apply ko_bind; [apply ko_reads|]. intros tokenExpired.
  destruct (negb tokenExpired); [apply ko_ret|].
  destruct (registration data) as [reg|].
  - apply ko_bind; [apply ko_reads|]. intros registrationExpired.
    destruct (_ && _).
    + apply ko_bind; [apply ko_refreshToken | intros; apply ko_ret].
    + apply ko_bind; [apply ko_invalidate | intros; apply ko_ret].
  - apply ko_bind; [apply ko_invalidate | intros; apply ko_ret].
Qed.

(** X7.  Whatever the collaborators do, [getToken], [refreshToken] and
    [invalidate] change at most the token entry under this profile's token
    key and the registration entry under its registration key: every other
    entry of both caches and the session creation dates stay as they were.
    [refreshToken] leaves the whole registration cache alone. *)
Theorem provider_keeps_other_entries :
  keeps_others key regKey getToken
  /\ keeps_others key regKey invalidate
  /\ (forall tok reg, keeps_others key regKey (refresh tok reg))
  /\ (forall tok reg w, registrationCache (snd (refresh tok reg w)) = registrationCache w).
Proof.
  split; [apply ko_getToken|]. split; [apply ko_invalidate|]. split; [apply ko_refreshToken|].
  intros tok reg w.
  unfold SsoAccessTokenProvider.refreshToken, try_catch.
  rewrite refreshToken_try_run. cbv zeta.
  assert (Hcatch : forall err w1, registrationCache
                     (snd (SsoAccessTokenProvider.refreshToken_catch env profile err w1))
                   = registrationCache w1).
  { intros err w1. rewrite refreshToken_catch_run. cbv zeta.
    destruct (isNetworkError env err); [reflexivity|].
    destruct (providerClientFault env err); [|reflexivity].
    match goal with |- context [SsoAccessTokenProvider.cache_token_clear env ?k ?y ?v] =>
      destruct (token_clear_world env k y v) as (_ & Hr & _);
      destruct (SsoAccessTokenProvider.cache_token_clear env k y v) as [[[]| |] w3]
    end; simpl in *; by rewrite Hr. }
  destruct (oidcCreateToken env _ w) as [response|err|]; [|by rewrite Hcatch|reflexivity].
  destruct (cacheCall env _ _) as [[]|err|]; [reflexivity|by rewrite Hcatch|reflexivity].
Qed.

(** X8.  A refresh sends the registration's client id and secret, the old
    refresh token and the grant type [refresh_token].  When the OIDC call and
    the save complete, the record returned and stored under the token key
    pairs the new token with the same registration, region and start URL;
    the only calls made are the OIDC call and the save, so no telemetry is
    emitted. *)
Theorem refreshToken_success (tok : SsoToken) (reg : ClientRegistration) (w : World)
    (response : SsoToken) :
  let req := refreshRequest tok reg in
  let refreshed := formatToken response reg in
  oidcCreateToken env req w = Returned response ->
  cacheCall env (TokenSave key refreshed) (emit (OidcCreateToken req) w) = Returned tt ->
  (req_grantType req = "refresh_token" /\ req_refreshToken req = refreshToken tok /\
   req_clientId req = clientId reg /\ req_clientSecret req = clientSecret reg)
  /\ fst (refresh tok reg w) = Returned refreshed
  /\ token refreshed = response /\ registration refreshed = Some reg
  /\ record_region refreshed = region profile /\ record_startUrl refreshed = startUrl profile
  /\ tokenCache (snd (refresh tok reg w)) = <[key := refreshed]> (tokenCache w)
  /\ trace (snd (refresh tok reg w)) = trace w ++ [OidcCreateToken req; TokenSave key refreshed].
Proof.
  intros req refreshed Hcreate Hsave.
  unfold SsoAccessTokenProvider.refreshToken, try_catch.
  rewrite refreshToken_try_run. cbv zeta. fold req. rewrite Hcreate. fold refreshed.
  rewrite Hsave. cbn. rewrite <- app_assoc. auto 10.
Qed.

(** X9.  Round trip through the cache: in the world a successful refresh
    leaves, a [getToken] whose [load] completes and that finds the new token
    unexpired returns that token, after the load and the log line alone: the
    OIDC client is not called again. *)
Theorem getToken_after_refresh (tok : SsoToken) (reg : ClientRegistration) (w w' : World)
    (refreshed : CachedRecord) :
  refresh tok reg w = (Returned refreshed, w') ->
  cacheCall env (TokenLoad key) w' = Returned tt ->
  fst (isExpired env (token refreshed) (emit (Log "info") (emit (TokenLoad key) w')))
  = Returned false ->
  getToken w' = (Returned (Some (token refreshed)), emit (Log "info") (emit (TokenLoad key) w')).
Proof.
  intros Hrefresh Hload Hfresh.
  assert (Hcached : tokenCache w' !! key = Some refreshed).
  { revert Hrefresh. unfold SsoAccessTokenProvider.refreshToken, try_catch.
    rewrite refreshToken_try_run. cbv zeta.
    assert (Hcatch : forall err w1 r w2,
              SsoAccessTokenProvider.refreshToken_catch env profile err w1 <> (Returned r, w2)).
    { intros err w1 r w2. rewrite refreshToken_catch_run. cbv zeta.
      destruct (isNetworkError env err); [discriminate|].
      destruct (providerClientFault env err); [|discriminate].
      by destruct (SsoAccessTokenProvider.cache_token_clear _ _ _ _) as [[[]| |] w3]. }
    destruct (oidcCreateToken env _ w) as [response|err|].
    - destruct (cacheCall env (TokenSave _ _) _) as [[]|err|].
      + intros [= <- <-]. cbn. apply lookup_insert_eq.
      + intros H. by apply Hcatch in H.
      + discriminate.
    - intros H. by apply Hcatch in H.
    - discriminate. }
  assert (Hrun : SsoAccessTokenProvider.cache_token_load env key w'
                 = (Returned (Some refreshed), emit (TokenLoad key) w')).
  { unfold SsoAccessTokenProvider.cache_token_load, SsoAccessTokenProvider.cache_call.
    by rewrite Hload, Hcached. }
  rewrite (getToken_loaded env profile w' _ refreshed Hrun). cbv zeta.
  apply isExpired_fst in Hfresh. by rewrite Hfresh.
Qed.

(** X10.  After an [invalidate] whose token [clear] completed, a [getToken]
    whose [load] completes finds nothing: it returns nothing after the load
    and the log line alone. *)
Theorem getToken_after_invalidate (w : World) :
  let w' := snd (invalidate w) in
  cacheCall env (TokenClear key invalidateReason) (emit (Log "info") w) = Returned tt ->
  cacheCall env (TokenLoad key) w' = Returned tt ->
  getToken w' = (Returned None, emit (Log "info") (emit (TokenLoad key) w')).
Proof.
  intros w' Hclear Hload.
  destruct (invalidate_effects env profile w) as (_ & _ & _ & _ & Htok & _).
  fold w' in Htok.
  assert (Hgone : tokenCache w' !! key = None).
  { apply Htok. unfold SsoAccessTokenProvider.cache_token_clear,
      SsoAccessTokenProvider.cache_call. by rewrite Hclear. }
  assert (Hrun : fst (SsoAccessTokenProvider.cache_token_load env key w') = Returned None).
  { unfold SsoAccessTokenProvider.cache_token_load, SsoAccessTokenProvider.cache_call.
    by rewrite Hload, Hgone. }
  rewrite getToken_not_loaded by (intros data; congruence).
  by rewrite Hrun.
Qed.

End ProviderExtras.

Lemma provider_keeps_other_entries_witness :
  let env := Demo.env 5000 Demo.healthy Hangs Hangs [] in
  let w := Demo.world
             {[ Demo.key := Demo.cached (Demo.tok "A" 1000 None) None;
                "other-profile" := Demo.cached (Demo.tok "Z" 1000 None) None ]} ∅ in
  tokenCache (snd (SsoAccessTokenProvider.getToken env Demo.profile w)) !! "other-profile"
  = Some (Demo.cached (Demo.tok "Z" 1000 None) None).
Proof.
  intros env w.
  destruct (provider_keeps_other_entries env Demo.profile) as (H & _).
  destruct (H w) as (Hother & _).
  rewrite Hother; [reflexivity | discriminate].
Defined.

Lemma refreshToken_success_witness :
  let env := Demo.env 5000 Demo.healthy (Returned (Demo.tok "B" 9000000 (Some "r2"))) Hangs [] in
  let tok := Demo.tok "A" 1000 (Some "r1") in
  let w := Demo.world {[ Demo.key := Demo.cached tok (Some (Demo.reg 9000000)) ]} ∅ in
  fst (SsoAccessTokenProvider.refreshToken env Demo.profile tok (Demo.reg 9000000) w)
  = Returned (Demo.cached (Demo.tok "B" 9000000 (Some "r2")) (Some (Demo.reg 9000000))).
Proof.
  intros env tok w.
  destruct (refreshToken_success env Demo.profile tok (Demo.reg 9000000) w
              (Demo.tok "B" 9000000 (Some "r2")) eq_refl eq_refl) as (_ & H & _).
  exact H.
Defined.

Lemma getToken_after_refresh_witness :
  let env := Demo.env 5000 Demo.healthy (Returned (Demo.tok "B" 9000000 (Some "r2"))) Hangs [] in
  let tok := Demo.tok "A" 1000 (Some "r1") in
  let w := Demo.world {[ Demo.key := Demo.cached tok (Some (Demo.reg 9000000)) ]} ∅ in
  let w' := snd (SsoAccessTokenProvider.refreshToken env Demo.profile tok (Demo.reg 9000000) w) in
  fst (SsoAccessTokenProvider.getToken env Demo.profile w')
  = Returned (Some (Demo.tok "B" 9000000 (Some "r2"))).
Proof.
  intros env tok w w'.
  assert (Hrefresh : SsoAccessTokenProvider.refreshToken env Demo.profile tok (Demo.reg 9000000) w
                     = (Returned (Demo.cached (Demo.tok "B" 9000000 (Some "r2"))
                                    (Some (Demo.reg 9000000))), w'))
    by (vm_compute; reflexivity).
  rewrite (getToken_after_refresh env Demo.profile _ _ _ _ _ Hrefresh eq_refl eq_refl).
  reflexivity.
Defined.

Lemma getToken_after_invalidate_witness :
  let env := Demo.env 5000 Demo.healthy Hangs Hangs [] in
  let w := Demo.world {[ Demo.key := Demo.cached (Demo.tok "A" 9000000 None) None ]} ∅ in
  fst (SsoAccessTokenProvider.getToken env Demo.profile
         (snd (SsoAccessTokenProvider.invalidate env Demo.profile w)))
  = Returned None.
Proof.
  intros env w.
  rewrite (getToken_after_invalidate env Demo.profile w eq_refl eq_refl). reflexivity.
Defined.

(** ** The interactive flow: listener lifetime and the token exchange *)

Section EmitsOnly.
Context (P : Event -> Prop).

Lemma eo_ret {A} (a : A) : emits_only P (ret a).
Proof. intros w. exists []. simpl. by rewrite app_nil_r. Qed.

Lemma eo_throw {A} (err : JsError) : emits_only P (@throw A err).
Proof. intros w. exists []. simpl. by rewrite app_nil_r. Qed.

Lemma eo_reads {A} (f : World -> A) : emits_only P (reads f).
Proof. intros w. exists []. simpl. by rewrite app_nil_r. Qed.

Lemma eo_tell (ev : Event) : P ev -> emits_only P (tell ev).
Proof. intros H w. exists [ev]. simpl. split; [reflexivity | by constructor]. Qed.

Lemma eo_bind {A B} (m : M A) (k : A -> M B) :
  emits_only P m -> (forall a, emits_only P (k a)) -> emits_only P (bind m k).
Proof.
  intros Hm Hk w. unfold bind. destruct (Hm w) as (t1 & Ht1 & Hq1).
  destruct (m w) as [[a| |] w1]; simpl in *; [|by exists t1..].
  destruct (Hk a w1) as (t2 & Ht2 & Hq2).
  exists (t1 ++ t2). rewrite Ht2, Ht1, app_assoc. split; [reflexivity | by apply Forall_app].
Qed.

Lemma eo_try_catch {A} (body : M A) (handler : JsError -> M A) :
  emits_only P body -> (forall err, emits_only P (handler err)) ->
  emits_only P (try_catch body handler).
Proof.
  intros Hm Hk w. unfold try_catch. destruct (Hm w) as (t1 & Ht1 & Hq1).
  destruct (body w) as [[a|err|] w1]; simpl in *; [by exists t1| |by exists t1].
  destruct (Hk err w1) as (t2 & Ht2 & Hq2).
  exists (t1 ++ t2). rewrite Ht2, Ht1, app_assoc. split; [reflexivity | by apply Forall_app].
Qed.

End EmitsOnly.

Section AuthorizeExtras.
Context (env : Env) (profile : SsoProfile).

Local Abbreviation server_close := (SsoAccessTokenProvider.server_close env).
Local Abbreviation authorize := (SsoAccessTokenProvider.authorize env profile).

Lemma server_close_run (w : World) :
  fst (server_close w) <> Hangs /\
  trace (snd (server_close w)) = trace w ++ [ServerClose] /\
  Server.listening (authServer (snd (server_close w))) = false /\
  tokenCache (snd (server_close w)) = tokenCache w /\
  registrationCache (snd (server_close w)) = registrationCache w /\
  sessionCreationDates (snd (server_close w)) = sessionCreationDates w.
Proof.
  unfold SsoAccessTokenProvider.server_close.
  destruct (Server.listening (authServer w)) eqn:Hl; cbn [negb].
  - destruct (closeError env w); cbn; auto 10.
  - cbn. rewrite Hl. auto 10.
Qed.

(** [try { body } finally { await authServer.close() }]: the close call is
    made, last, exactly when the body settles. *)
Lemma try_finally_close {A} (body : M A) (w : World) :
  let b := body w in
  let r := try_finally body server_close w in
  (fst b = Hangs /\ r = (Hangs, snd b))
  \/ (fst b <> Hangs /\ fst r <> Hangs /\ snd r = snd (server_close (snd b)) /\
      (fst (server_close (snd b)) = Returned tt -> fst r = fst b)).
Proof.
  intros b r. subst b r. unfold try_finally.
  destruct (server_close_run (snd (body w))) as (Hnh & _).
  destruct (body w) as [[a|err|] w1]; cbn [fst snd] in *.
  - right. split; [discriminate|].
    destruct (server_close w1) as [[[]|e|] w2]; cbn in *; repeat split; intros; congruence.
  - right. split; [discriminate|].
    destruct (server_close w1) as [[[]|e|] w2]; cbn in *; repeat split; intros; congruence.
  - left. auto.
Qed.

Lemma try_catch_log {A} (inner : M A) (w : World) :
  let b := inner w in
  let r := try_catch inner (fun err => bind (tell (Log "console")) (fun _ => throw err)) w in
  fst r = fst b /\
  ((forall err, fst b <> Threw err) /\ snd r = snd b
   \/ (exists err, fst b = Threw err) /\ snd r = emit (Log "console") (snd b)).
Proof.
  intros b r. subst b r. unfold try_catch, bind, tell, throw.
  destruct (inner w) as [[a|err|] w1]; cbn; split; auto; try (left; split; [discriminate|auto]).
  right. eauto.
Qed.

Lemma Forall_served (P : Event -> Prop) (reqs : list Server.Request)
    (ress : list Server.Response) :
  (forall req res, P (ServerRequest req res)) -> Forall P (zip_with ServerRequest reqs ress).
Proof.
  intros HP. revert ress. induction reqs as [|req rest IH]; intros [|res ress]; simpl;
    constructor; auto.
Qed.

Lemma In_served (reqs : list Server.Request) (ress : list Server.Response)
    (req : Server.Request) :
  In req reqs -> length ress = length reqs ->
  exists res, In (ServerRequest req res) (zip_with ServerRequest reqs ress).
Proof.
  revert ress. induction reqs as [|r rest IH]; intros [|res ress] Hin Hlen;
    try destruct Hin; try discriminate.
  - subst. exists res. by left.
  - injection Hlen as Hlen. destruct (IH ress H Hlen) as [res' Hres]. exists res'. by right.
Qed.

Lemma eo_openSsoPortalLink (P : Event -> Prop) (location : string) :
  (forall res, P (EmitLoginWithBrowser res)) -> P (OpenExternal location) ->
  emits_only P (openSsoPortalLink env location).
Proof.
  intros Hlogin Hopen w. rewrite openSsoPortalLink_run. cbv zeta.
  destruct (openExternal env location w) as [[|]| |];
    [eexists [_; _] | eexists [_; _] | eexists [_; _] | eexists [_]];
    cbn; rewrite <- ?app_assoc; (split; [reflexivity|]); repeat constructor; auto.
Qed.

Lemma eo_authorize_body (P : Event -> Prop) (reg : ClientRegistration) (w : World) :
  (forall ev, ev <> ServerClose -> (forall treq, ev <> OidcCreateToken treq) -> P ev) ->
  (forall treq, P (OidcCreateToken treq)) ->
  exists body : M CachedRecord,
    authorize reg w
    = try_finally body server_close (with_authServer (Server.new (randomUUID env w)) w)
    /\ emits_only P body.
Proof.
  intros HP Hexchange. unfold SsoAccessTokenProvider.authorize.
  unfold bind at 1. unfold reads at 1. unfold bind at 1.
  eexists. split; [reflexivity|].
  assert (Hev : forall ev, match ev with
                           | ServerClose | OidcCreateToken _ => True
                           | _ => P ev
                           end).
  { intros ev. destruct ev; auto; apply HP; discriminate. }
  apply eo_try_catch.
  - apply eo_bind.
    { intros w1. unfold SsoAccessTokenProvider.server_start.
      destruct (Server.start _ _) as [srv [e|]]; eexists [_]; cbn;
        (split; [reflexivity|]); repeat constructor; apply (Hev (ServerListen _)). }
    intros _. apply eo_bind.
    { intros w1. unfold SsoAccessTokenProvider.server_redirectUri.
      destruct (Server.redirectUri _ _); exists []; cbn; by rewrite app_nil_r. }
    intros uri. apply eo_bind; [apply eo_reads|]. intros verifier.
    apply eo_bind.
    { intros w1. eexists [_]. cbn. split; [reflexivity|].
      repeat constructor. apply (Hev (OidcAuthorize _)). }
    intros location. apply eo_bind.
    { apply eo_openSsoPortalLink; [intros res; apply (Hev (EmitLoginWithBrowser res))|].
      apply (Hev (OpenExternal _)). }
    intros opened. apply eo_bind.
    { destruct (negb opened); [apply eo_throw | apply eo_ret]. }
    intros _. apply eo_bind.
    { intros w1. unfold SsoAccessTokenProvider.server_waitForAuthorization.
      destruct (Server.serve _ _) as [srv ress].
      eexists. split.
      - destruct (Server.waitForAuthorization srv); cbn; reflexivity.
      - apply Forall_served. intros req res. apply (Hev (ServerRequest req res)). }
    intros code. apply eo_bind; [|intros; apply eo_ret].
    intros w1. eexists [_]. cbn. split; [reflexivity|]. repeat constructor. apply Hexchange.
  - intros err. apply eo_bind; [|intros; apply eo_throw].
    apply eo_tell. apply (Hev (Log _)).
Qed.

(** X11.  [authorize] closes the listener exactly once, as its last call, on
    every path that settles, whether it returns or throws, and the listener
    is not listening afterwards.  Only a run that never settles (the redirect
    never arrives, or a collaborator never answers) makes no [close] call. *)
Theorem authorize_closes_once (reg : ClientRegistration) (w : World) :
  let r := authorize reg w in
  exists t, Forall (fun ev => ev <> ServerClose) t /\
    (fst r = Hangs /\ trace (snd r) = trace w ++ t
     \/ fst r <> Hangs /\ trace (snd r) = trace w ++ t ++ [ServerClose] /\
        Server.listening (authServer (snd r)) = false).
Proof.
  intros r. subst r.
  destruct (eo_authorize_body (fun ev => ev <> ServerClose) reg w) as (body & -> & Hbody);
    [auto | discriminate |].
  set (w0 := with_authServer (Server.new (randomUUID env w)) w).
  destruct (Hbody w0) as (t & Ht & Hno). exists t. split; [exact Hno|].
  destruct (try_finally_close body w0) as [(Hh & ->) | (Hb & Hr & Hs & _)].
  - left. split; [reflexivity | exact Ht].
  - right. split; [exact Hr|]. rewrite Hs.
    destruct (server_close_run (snd (body w0))) as (_ & Htr & Hl & _).
    rewrite Htr, Ht, Hl, <- app_assoc. auto.
Qed.

(** X12.  When the listener cannot start because [listen] fails or the
    server closes, [authorize] does not report that failure: [close()] in
    [finally] finds the listener not started, and its [Server not started]
    error replaces the one from [start()].  Neither the OIDC client nor the
    browser is called. *)
Theorem authorize_start_failure (reg : ClientRegistration) (w : World) :
  let w0 := with_authServer (Server.new (randomUUID env w)) w in
  (exists error, listen env w0 = Server.OnError error) \/ listen env w0 = Server.OnClose ->
  fst (authorize reg w)
  = Threw (mkToolkitError ClassToolkitError "AuthSSOServer: Server not started" None)
  /\ trace (snd (authorize reg w))
     = trace w ++ [ServerListen Server.listenPort; Log "console"; ServerClose].
Proof.
  intros w0 Hlisten.
  assert (Hrun : authorize reg w
                 = (Threw (mkToolkitError ClassToolkitError
                             "AuthSSOServer: Server not started" None),
                    emit ServerClose
                      (emit (Log "console") (emit (ServerListen Server.listenPort) w0)))).
  { unfold SsoAccessTokenProvider.authorize.
    unfold bind at 1. unfold reads at 1. unfold bind at 1. fold w0.
    unfold try_finally, try_catch.
    unfold bind at 1. unfold SsoAccessTokenProvider.server_start at 1.
    destruct Hlisten as [[error ->] | ->]; reflexivity. }
  rewrite Hrun. cbn. rewrite <- !app_assoc. auto.
Qed.

Lemma In_served_inv (reqs : list Server.Request) (ress : list Server.Response) (ev : Event) :
  In ev (zip_with ServerRequest reqs ress) -> exists req res, ev = ServerRequest req res.
Proof.
  revert ress. induction reqs as [|r rest IH]; intros [|res ress] Hin; simpl in Hin;
    try contradiction.
  destruct Hin as [<-|Hin]; eauto.
Qed.

Ltac early_exit :=
  eexists; split;
  [ cbn; rewrite <- ?app_assoc; reflexivity
  | let treq := fresh "treq" in
    let Hin := fresh "Hin" in
    intros treq Hin; cbn in Hin;
    repeat (destruct Hin as [Hin|Hin]; [discriminate|]); contradiction ].

Lemma authorize_body_bound (reg : ClientRegistration) (w : World) :
  let st := randomUUID env w in
  let w0 := with_authServer (Server.new st) w in
  exists body : M CachedRecord,
    authorize reg w = try_finally body server_close w0 /\
    exists t, trace (snd (body w0)) = trace w0 ++ t /\
              forall treq, In (OidcCreateToken treq) t -> exchange_bound env reg st t treq.
Proof.
  intros st w0. unfold SsoAccessTokenProvider.authorize.
  unfold bind at 1. unfold reads at 1. unfold bind at 1. fold st. fold w0.
  eexists. split; [reflexivity|].
  match goal with |- context [try_catch ?inner _ w0] => set (I := inner) end.
  assert (HI : exists t, trace (snd (I w0)) = trace w0 ++ t /\
                 forall treq, In (OidcCreateToken treq) t -> exchange_bound env reg st t treq).
  2:{ destruct HI as (t & Ht & Hbound).
      destruct (try_catch_log I w0) as (_ & [(_ & ->) | (_ & ->)]).
      - exists t. auto.
      - exists (t ++ [Log "console"]). split; [cbn; by rewrite Ht, <- app_assoc|].
        intros treq Hin. apply in_app_or in Hin as [Hin | [Hin | []]]; [|discriminate].
        destruct (Hbound treq Hin)
          as (areq & v & c & http & res & params & H1 & H2 & H3 & H4 & H5 & H6 & H7 & H8 & H9
              & H10 & H11 & H12 & H13 & H14).
        exists areq, v, c, http, res, params.
        repeat (split; [assumption || (apply in_or_app; by left)|]). exact H14. }
  subst I.
  unfold bind at 1. unfold SsoAccessTokenProvider.server_start at 1.
  change (authServer w0) with (Server.new st).
  destruct (Server.start (listen env w0) (Server.new st)) as [srv [e|]] eqn:Hstart;
    [early_exit|].
  assert (Hsrv : Server.state srv = st /\
                 Server.authenticationPromise srv = Server.PromisePending).
  { revert Hstart. unfold Server.start. cbn.
    destruct (listen env w0) as [[addr|]| |]; try discriminate. by intros [= <-]. }
  destruct Hsrv as [Hstate Hpending].
  set (w1 := emit (ServerListen Server.listenPort) (with_authServer srv w0)).
  unfold bind at 1. unfold SsoAccessTokenProvider.server_redirectUri at 1.
  change (authServer w1) with srv.
  destruct (Server.redirectUri (parseInt env) srv) as [uri|e]; [|early_exit].
  unfold bind at 1. unfold reads at 1.
  unfold bind at 1. unfold SsoAccessTokenProvider.oidc_authorize at 1.
  match goal with |- context [oidcAuthorize env ?a w1] => set (areq := a) end.
  destruct (oidcAuthorize env areq w1) as [location|e|]; [|early_exit..].
  set (w2 := emit (OidcAuthorize areq) w1).
  unfold bind at 1. rewrite openSsoPortalLink_run. cbv zeta.
  destruct (openExternal env location w2) as [[|]|e|]; [|early_exit..].
  set (w3 := emit (EmitLoginWithBrowser "Succeeded") (emit (OpenExternal location) w2)).
  cbn [negb]. unfold bind at 1. unfold ret at 1.
  unfold bind at 1. unfold SsoAccessTokenProvider.server_waitForAuthorization at 1.
  change (authServer w3) with srv.
  pose proof (serve_length (redirects env w3) srv) as Hlen.
  pose proof (serve_fulfilled (redirects env w3) srv) as Hful.
  destruct (Server.serve (redirects env w3) srv) as [srv2 ress]. cbn [fst snd] in Hlen, Hful.
  set (served := zip_with ServerRequest (redirects env w3) ress).
  set (before := [ServerListen Server.listenPort; OidcAuthorize areq; OpenExternal location;
                  EmitLoginWithBrowser "Succeeded"]).
  assert (Hbefore : forall treq, ~ In (OidcCreateToken treq) (before ++ served)).
  { intros treq Hin. apply in_app_or in Hin as [Hin|Hin].
    - cbn in Hin. repeat (destruct Hin as [Hin|Hin]; [discriminate|]). contradiction.
    - apply In_served_inv in Hin as (req & res & Hin). discriminate. }
  unfold Server.waitForAuthorization.
  destruct (Server.authenticationPromise srv2) as [|code|err] eqn:Hwait.
  - exists (before ++ served). split; [cbn; by rewrite <- !app_assoc|].
    intros treq Hin. by apply Hbefore in Hin.
  - unfold bind at 1. unfold SsoAccessTokenProvider.oidc_createToken at 1.
    match goal with |- context [oidcCreateToken env ?a _] => set (treq0 := a) end.
    exists (before ++ served ++ [OidcCreateToken treq0]). split.
    { destruct (oidcCreateToken env treq0 _); cbn; by rewrite <- !app_assoc. }
    intros treq Hin.
    assert (treq = treq0) as ->.
    { rewrite app_assoc in Hin. apply in_app_or in Hin as [Hin|[Hin|[]]]; [|congruence].
      by apply Hbefore in Hin. }
    destruct (Hful code Hpending eq_refl)
      as (http & params & Hhttp & Hurl & Hcode & _ & Hst & _).
    destruct (In_served _ _ _ Hhttp Hlen) as [res Hres].
    exists areq, (randomCodeVerifier env w1), code, http, res, params.
    rewrite Hstate in Hst.
    repeat (split; [reflexivity || assumption || idtac|]); try assumption.
    + cbn. auto.
    + apply in_or_app. right. apply in_or_app. left. exact Hres.
  - exists (before ++ served). split; [cbn; by rewrite <- !app_assoc|].
    intros treq Hin. by apply Hbefore in Hin.
Qed.

(** X13.  Every token exchange [authorize] attempts is bound to its own
    authorization request: the code it presents arrived in a request to [/]
    that carried the state generated for this run, the verifier it presents
    is the one whose S256 challenge went into the authorization URL, and it
    names the same redirect URI and the registration's client id and secret
    with grant type [authorization_code].  No other call of [createToken] is
    made. *)
Theorem authorize_exchange_is_bound (reg : ClientRegistration) (w : World) :
  exists t, trace (snd (authorize reg w)) = trace w ++ t /\
    forall treq, In (OidcCreateToken treq) t ->
      exchange_bound env reg (randomUUID env w) t treq.
Proof.
  destruct (authorize_body_bound reg w) as (body & -> & t & Ht & Hbound).
  set (w0 := with_authServer (Server.new (randomUUID env w)) w) in *.
  destruct (try_finally_close body w0) as [(_ & ->) | (_ & _ & -> & _)].
  - exists t. auto.
  - destruct (server_close_run (snd (body w0))) as (_ & -> & _).
    exists (t ++ [ServerClose]). split; [rewrite Ht; by rewrite <- app_assoc|].
    intros treq Hin. apply in_app_or in Hin as [Hin | [Hin | []]]; [|discriminate].
    destruct (Hbound treq Hin)
      as (areq & v & c & http & res & params & H1 & H2 & H3 & H4 & H5 & H6 & H7 & H8 & H9
          & H10 & H11 & H12 & H13 & H14).
    exists areq, v, c, http, res, params.
    repeat (split; [assumption || (apply in_or_app; by left)|]). exact H14.
Qed.


End AuthorizeExtras.

(** ** Creating a token *)

Section FlowExtras.
Context (env : Env) (profile : SsoProfile) (flow : FlowEnv).

Local Abbreviation key := (SsoAccessTokenProvider.tokenCacheKey profile).
Local Abbreviation regKey := (SsoAccessTokenProvider.registrationCacheKey profile).
Local Abbreviation invalidate := (SsoAccessTokenProvider.invalidate env profile).
Local Abbreviation getToken := (SsoAccessTokenProvider.getToken env profile).
Local Abbreviation authorize := (SsoAccessTokenProvider.authorize env profile).
Local Abbreviation registerClient := (SsoAccessTokenProvider.registerClient profile flow).
Local Abbreviation getValidatedClientRegistration :=
  (SsoAccessTokenProvider.getValidatedClientRegistration env profile flow).
Local Abbreviation runFlow := (SsoAccessTokenProvider.runFlow env profile flow).
Local Abbreviation createToken := (SsoAccessTokenProvider.createToken env profile flow).
Local Abbreviation setSessionCreationDate :=
  (SsoAccessTokenProvider.setSessionCreationDate flow).

Lemma setSessionCreationDate_run (id : string) (date : Z) (w : World) :
  setSessionCreationDate id date w =
    let value := <[id := date]> (sessionCreationDates w) in
    match mementoUpdateCall flow value w with
    | Returned _ => (Returned tt, with_sessionCreationDates value w)
    | Threw err => (Returned tt, emit (Log "verbose") w)
    | Hangs => (Hangs, w)
    end.
Proof.
  unfold SsoAccessTokenProvider.setSessionCreationDate, try_catch, bind, reads, tell,
    SsoAccessTokenProvider.memento_update.
  cbv zeta. by destruct (mementoUpdateCall flow _ w).
Qed.

(** X14.  Recording the session creation date is best effort:
    [setSessionCreationDate] never throws and never touches a cache.  When the
    memento update completes, the date is stored under the id, the dates of
    other ids are kept, and [getSessionDuration] then measures from it; when
    the update fails, the failure is logged and the dates stay as they
    were. *)
Theorem setSessionCreationDate_best_effort (id : string) (date : Z) (w : World) :
  let r := setSessionCreationDate id date w in
  (forall err, fst r <> Threw err)
  /\ tokenCache (snd r) = tokenCache w
  /\ registrationCache (snd r) = registrationCache w
  /\ (mementoUpdateCall flow (<[id := date]> (sessionCreationDates w)) w = Returned tt ->
      fst r = Returned tt
      /\ sessionCreationDates (snd r) !! id = Some date
      /\ (forall k, k <> id -> sessionCreationDates (snd r) !! k = sessionCreationDates w !! k)
      /\ fst (SsoAccessTokenProvider.getSessionDuration env id (snd r))
         = Returned (Some (dateNow env (snd r) - date)))
  /\ (forall err,
        mementoUpdateCall flow (<[id := date]> (sessionCreationDates w)) w = Threw err ->
        fst r = Returned tt
        /\ sessionCreationDates (snd r) = sessionCreationDates w
        /\ trace (snd r) = trace w ++ [Log "verbose"]).
Proof.
  intros r. subst r. rewrite setSessionCreationDate_run. cbv zeta.
  destruct (mementoUpdateCall flow _ w) as [[]|err|] eqn:Hcall.
  - split; [discriminate|]. split; [reflexivity|]. split; [reflexivity|]. split; [|discriminate].
    intros _. cbn. split; [reflexivity|]. split; [apply lookup_insert_eq|]. split.
    + intros k Hk. by apply lookup_insert_ne.
    + unfold SsoAccessTokenProvider.getSessionDuration,
        SsoAccessTokenProvider.getSessionCreationDate, bind, reads. cbn.
      by rewrite lookup_insert_eq.
  - split; [discriminate|]. split; [reflexivity|]. split; [reflexivity|]. split; [discriminate|].
    intros err' _. auto.
  - split; [discriminate|]. split; [reflexivity|]. split; [reflexivity|]. split; discriminate.
Qed.

Lemma runFlow_run (w w1 : World) (reg : ClientRegistration) :
  getValidatedClientRegistration w = (Returned reg, w1) ->
  runFlow w =
    match authorize reg w1 with
    | (Threw err, w2) =>
        if providerClientFault env err then
          match SsoAccessTokenProvider.cache_registration_clear env regKey
                  (clientFaultReason err) w2 with
          | (Returned _, w3) => (Threw err, w3)
          | (Threw err', w3) => (Threw err', w3)
          | (Hangs, w3) => (Hangs, w3)
          end
        else (Threw err, w2)
    | other => other
    end.
Proof.
  intros Hreg. unfold SsoAccessTokenProvider.runFlow. unfold bind at 1. rewrite Hreg.
  unfold try_catch. destruct (authorize reg w1) as [[access|err|] w2]; try reflexivity.
  unfold providerClientFault, clientFaultReason, bind, throw, ret.
  destruct (_ && _); [|reflexivity].
  by destruct (SsoAccessTokenProvider.cache_registration_clear _ _ _ _) as [[[]| |] w3].
Qed.

(** X15.  [runFlow] passes on what [authorize] returns.  When [authorize]
    throws, the error is thrown again unchanged and nothing else happens,
    unless it is a client fault reported by the provider: then a [clear] of
    the registration entry is issued first, the token cache is left alone,
    and the error is thrown again once that call completes. *)
Theorem runFlow_policy (w w1 : World) (reg : ClientRegistration) :
  getValidatedClientRegistration w = (Returned reg, w1) ->
  (forall access w2, authorize reg w1 = (Returned access, w2) ->
     runFlow w = (Returned access, w2))
  /\ (forall err w2, authorize reg w1 = (Threw err, w2) ->
        (providerClientFault env err = false -> runFlow w = (Threw err, w2))
        /\ (providerClientFault env err = true ->
            trace (snd (runFlow w))
            = trace w2 ++ [RegistrationClear regKey (clientFaultReason err)]
            /\ tokenCache (snd (runFlow w)) = tokenCache w2
            /\ (cacheCall env (RegistrationClear regKey (clientFaultReason err)) w2
                = Returned tt ->
                fst (runFlow w) = Threw err
                /\ registrationCache (snd (runFlow w)) !! regKey = None))).
Proof.
  intros Hreg. rewrite (runFlow_run w w1 reg Hreg). split.
  - by intros access w2 ->.
  - intros err w2 ->. split; [by intros ->|]. intros ->.
    destruct (registration_clear_world env regKey (clientFaultReason err) w2)
      as (Ht & Hk & _ & Hc).
    destruct (SsoAccessTokenProvider.cache_registration_clear env regKey
                (clientFaultReason err) w2) as [o w3].
    cbn [fst snd] in *.
    assert (Hsnd : forall (x : Outcome unit),
              snd (match x with
                   | Returned _ => (@Threw CachedRecord err, w3)
                   | Threw err' => (Threw err', w3)
                   | Hangs => (Hangs, w3)
                   end) = w3) by (by intros [| |]).
    rewrite Hsnd. split; [exact Ht|]. split; [exact Hk|].
    intros Hok. destruct Hc as [(-> & _ & ->) | (_ & Hne & _)]; [|contradiction].
    split; [reflexivity | apply lookup_delete_eq].
Qed.

Lemma createToken_run (w w1 : World) (access : CachedRecord) :
  runFlow w = (Returned access, w1) ->
  createToken w =
    match cacheCall env (TokenSave key access) w1 with
    | Returned _ =>
        let w2 := emit (TokenSave key access)
                    (with_tokenCache (<[key := access]> (tokenCache w1)) w1) in
        match setSessionCreationDate key (dateNow env w2) w2 with
        | (Returned _, w3) => (Returned (withIdentity key (token access)), w3)
        | (Threw err, w3) => (Threw err, w3)
        | (Hangs, w3) => (Hangs, w3)
        end
    | Threw err => (Threw err, emit (TokenSave key access) w1)
    | Hangs => (Hangs, emit (TokenSave key access) w1)
    end.
Proof.
  intros Hflow. unfold SsoAccessTokenProvider.createToken. unfold bind at 1. rewrite Hflow.
  unfold bind at 1. unfold SsoAccessTokenProvider.cache_token_save,
    SsoAccessTokenProvider.cache_call.
  destruct (cacheCall env (TokenSave key access) w1); try reflexivity.
Qed.

(** X16.  [createToken] fails as [runFlow] fails, saving nothing.  When
    [runFlow] returns a record it is saved, as it is, under the token key;
    if the save fails [createToken] throws and no session date is written;
    if it completes, [createToken] returns the record's token with
    [identity] set to the token key and the other fields unchanged, whether
    or not the session date could be written. *)
Theorem createToken_result (w : World) :
  (forall err w1, runFlow w = (Threw err, w1) -> createToken w = (Threw err, w1))
  /\ (forall access w1, runFlow w = (Returned access, w1) ->
        (forall err, cacheCall env (TokenSave key access) w1 = Threw err ->
           fst (createToken w) = Threw err
           /\ tokenCache (snd (createToken w)) = tokenCache w1
           /\ sessionCreationDates (snd (createToken w)) = sessionCreationDates w1)
        /\ (cacheCall env (TokenSave key access) w1 = Returned tt ->
            let w2 := emit (TokenSave key access)
                        (with_tokenCache (<[key := access]> (tokenCache w1)) w1) in
            mementoUpdateCall flow (<[key := dateNow env w2]> (sessionCreationDates w2)) w2
            <> Hangs ->
            fst (createToken w) = Returned (withIdentity key (token access))
            /\ identity (withIdentity key (token access)) = Some key
            /\ accessToken (withIdentity key (token access)) = accessToken (token access)
            /\ expiresAt (withIdentity key (token access)) = expiresAt (token access)
            /\ refreshToken (withIdentity key (token access)) = refreshToken (token access)
            /\ tokenCache (snd (createToken w)) !! key = Some access)).
Proof.
  split.
  - intros err w1 Hflow. unfold SsoAccessTokenProvider.createToken, bind. by rewrite Hflow.
  - intros access w1 Hflow. rewrite (createToken_run w w1 access Hflow). split.
    + by intros err ->.
    + intros -> w2 Hmemento. cbv zeta. fold w2.
      rewrite setSessionCreationDate_run. cbv zeta.
      destruct (mementoUpdateCall flow _ w2) as [[]|err|]; [| |contradiction];
        cbn; rewrite lookup_insert_eq; auto 10.
Qed.

(** X17.  Round trip: in the world a successful [createToken] leaves, a
    [getToken] whose [load] completes and that finds the token unexpired
    returns the cached token: the one [createToken] returned, without its
    [identity], so with the same [accessToken]. *)
Theorem getToken_after_createToken (w w' : World) (tok : SsoToken) :
  createToken w = (Returned tok, w') ->
  cacheCall env (TokenLoad key) w' = Returned tt ->
  fst (isExpired env tok (emit (Log "info") (emit (TokenLoad key) w'))) = Returned false ->
  exists cached,
    getToken w' = (Returned (Some cached), emit (Log "info") (emit (TokenLoad key) w'))
    /\ tok = withIdentity key cached
    /\ accessToken cached = accessToken tok.
Proof.
  intros Hcreate Hload Hfresh.
  assert (Hcached : exists access, tokenCache w' !! key = Some access
                                   /\ tok = withIdentity key (token access)).
  { revert Hcreate.
    destruct (runFlow w) as [[access|err|] w1] eqn:Hflow;
      [|unfold SsoAccessTokenProvider.createToken, bind; rewrite Hflow; discriminate..].
    rewrite (createToken_run w w1 access Hflow).
    destruct (cacheCall env (TokenSave key access) w1); try discriminate.
    cbv zeta. rewrite setSessionCreationDate_run. cbv zeta.
    destruct (mementoUpdateCall flow _ _) as [[]|err|]; try discriminate;
      intros [= <- <-]; exists access; cbn; by rewrite lookup_insert_eq. }
  destruct Hcached as (access & Hcached & ->).
  exists (token access).
  assert (Hrun : SsoAccessTokenProvider.cache_token_load env key w'
                 = (Returned (Some access), emit (TokenLoad key) w')).
  { unfold SsoAccessTokenProvider.cache_token_load, SsoAccessTokenProvider.cache_call.
    by rewrite Hload, Hcached. }
  rewrite (getToken_loaded env profile w' _ access Hrun). cbv zeta.
  apply isExpired_fst in Hfresh.
  change (expiresAt (withIdentity key (token access))) with (expiresAt (token access)) in Hfresh.
  rewrite Hfresh. auto.
Qed.

Lemma getValidatedClientRegistration_run (w : World) :
  registrationLoadCall flow regKey w = Returned tt ->
  getValidatedClientRegistration w =
    let stale := match registrationCache w !! regKey with
                 | Some reg => (clockNow env w + expirationBufferMs >=? expiresAt reg)
                               || isDeprecatedAuth reg
                 | None => false
                 end in
    match (if stale then invalidate w else (Returned tt, w)) with
    | (Returned _, w2) =>
        SsoAccessTokenProvider.loadOr flow regKey registerClient w2
    | (Threw err, w2) => (Threw err, w2)
    | (Hangs, w2) => (Hangs, w2)
    end.
Proof.
  intros Hload. unfold SsoAccessTokenProvider.getValidatedClientRegistration. cbv zeta.
  unfold bind at 1. unfold SsoAccessTokenProvider.cache_registration_load at 1. rewrite Hload.
  unfold bind at 1.
  destruct (registrationCache w !! regKey) as [reg|]; [|reflexivity].
  unfold bind at 1. rewrite isExpired_run.
  by destruct (_ || _).
Qed.

Lemma loadOr_run (fn : M ClientRegistration) (w : World) :
  registrationLoadCall flow regKey w = Returned tt ->
  SsoAccessTokenProvider.loadOr flow regKey fn w =
    match registrationCache w !! regKey with
    | Some reg => (Returned reg, w)
    | None =>
        match fn w with
        | (Returned data, w1) =>
            match SsoAccessTokenProvider.cache_registration_save flow regKey data w1 with
            | (Returned _, w2) => (Returned data, w2)
            | (Threw err, w2) => (Threw err, w2)
            | (Hangs, w2) => (Hangs, w2)
            end
        | (Threw err, w1) => (Threw err, w1)
        | (Hangs, w1) => (Hangs, w1)
        end
    end.
Proof.
  intros Hload. unfold SsoAccessTokenProvider.loadOr. unfold bind at 1.
  unfold SsoAccessTokenProvider.cache_registration_load at 1. rewrite Hload.
  destruct (registrationCache w !! regKey) as [reg|]; [reflexivity|].
  unfold bind, ret. destruct (fn w) as [[data| |] w1]; reflexivity.
Qed.

(** X18.  [getValidatedClientRegistration], when the loads of the
    registration cache complete.  A cached registration that is unexpired
    and has an [issuerUrl] is returned as it is and nothing changes.  A
    cached registration that is expired, or has no [issuerUrl] whatever its
    expiry, triggers [invalidate]; once the registration [clear] has
    completed, a client is registered anew, cached and returned.  With
    nothing cached a client is registered, cached and returned, and no
    [clear] is issued. *)
Theorem getValidatedClientRegistration_cases (w : World) :
  registrationLoadCall flow regKey w = Returned tt ->
  (forall reg, registrationCache w !! regKey = Some reg ->
     fst (isExpired env reg w) = Returned false -> is_Some (issuerUrl reg) ->
     getValidatedClientRegistration w = (Returned reg, w))
  /\ (forall reg fresh, registrationCache w !! regKey = Some reg ->
        fst (isExpired env reg w) = Returned true \/ issuerUrl reg = None ->
        let w2 := snd (invalidate w) in
        fst (invalidate w) = Returned tt ->
        registrationCache w2 !! regKey = None ->
        registrationLoadCall flow regKey w2 = Returned tt ->
        fst (registerClient w2) = Returned fresh ->
        registrationSaveCall flow regKey fresh w2 = Returned tt ->
        fst (getValidatedClientRegistration w) = Returned fresh
        /\ registrationCache (snd (getValidatedClientRegistration w)) !! regKey = Some fresh
        /\ trace (snd (getValidatedClientRegistration w))
           = trace w ++ [Log "info"; TokenClear key invalidateReason;
                         RegistrationClear regKey invalidateReason])
  /\ (forall fresh, registrationCache w !! regKey = None ->
        fst (registerClient w) = Returned fresh ->
        registrationSaveCall flow regKey fresh w = Returned tt ->
        getValidatedClientRegistration w
        = (Returned fresh, with_registrationCache (<[regKey := fresh]> (registrationCache w)) w)).
Proof.
  intros Hload. rewrite (getValidatedClientRegistration_run w Hload). cbv zeta.
  split; [|split].
  - intros reg Hreg Hexp [url Hurl]. rewrite Hreg.
    apply isExpired_fst in Hexp. rewrite Hexp. unfold isDeprecatedAuth. rewrite Hurl.
    cbn [orb]. rewrite (loadOr_run _ w Hload). by rewrite Hreg.
  - intros reg fresh Hreg Hstale Hdone Hgone Hload2 Hfresh Hsave. rewrite Hreg.
    assert ((clockNow env w + expirationBufferMs >=? expiresAt reg) || isDeprecatedAuth reg
            = true) as ->.
    { destruct Hstale as [Hexp | Hurl].
      - apply isExpired_fst in Hexp. by rewrite Hexp.
      - unfold isDeprecatedAuth. rewrite Hurl. apply orb_true_r. }
    destruct (invalidate_effects env profile w) as (_ & Htrace & _).
    destruct (invalidate w) as [o w2] eqn:Hinv. cbn [fst snd] in *. subst o.
    rewrite (loadOr_run _ w2 Hload2), Hgone.
    unfold SsoAccessTokenProvider.registerClient, SsoAccessTokenProvider.oidc_registerClient
      in *. cbn [fst snd] in *. rewrite Hfresh.
    unfold SsoAccessTokenProvider.cache_registration_save. rewrite Hsave. cbn.
    rewrite lookup_insert_eq. auto.
  - intros fresh Hnone Hfresh Hsave. rewrite Hnone.
    rewrite (loadOr_run _ w Hload), Hnone.
    unfold SsoAccessTokenProvider.registerClient, SsoAccessTokenProvider.oidc_registerClient
      in *. cbn [fst snd] in *. rewrite Hfresh.
    unfold SsoAccessTokenProvider.cache_registration_save. by rewrite Hsave.
Qed.

(** X19.  The client [registerClient] registers fits what the provider does
    with it later: its one redirect URI is the [redirectUri] of a listener
    started on the fixed port, its grant types cover the exchange of
    [authorize] and the request of [refreshToken], its issuer is the
    profile's start URL and its scopes are the profile's.  The call changes
    nothing by itself. *)
Theorem registerClient_request (w : World) :
  exists req,
    registerClient w = (oidcRegisterClient flow req w, w)
    /\ (forall parseInt st,
          Server.redirectUri parseInt
            (fst (Server.start (Server.OnListening
                                  (Some (Server.AddressInfo Server.listenPort)))
                    (Server.new st)))
          = inl (hd "" (redirectUris req)))
    /\ length (redirectUris req) = 1%nat
    /\ In authorizationGrantType (grantTypes req)
    /\ (forall tok reg,
          In (req_grantType (SsoAccessTokenProvider.refreshRequest tok reg)) (grantTypes req))
    /\ register_issuerUrl req = startUrl profile
    /\ register_scopes req = scopes profile
    /\ clientType req = "public"
    /\ clientName req = company flow +:+ (if cloud9 flow then " Cloud9" else " Toolkit for VSCode").
Proof.
  eexists. split; [reflexivity|]. cbn.
  split; [intros; reflexivity|].
  repeat (split; [by auto|]). by destruct (cloud9 flow).
Qed.

End FlowExtras.

Lemma authorize_start_failure_witness :
  let env := {| isNetworkError := fun _ => false; isClientFault := fun _ => false;
                getTelemetryResult := fun _ => "Failed"; getTelemetryReason := fun _ => None;
                getRequestId := fun _ => None; parseInt := fun _ => Server.NaN;
                clockNow := fun _ => 0; dateNow := fun _ => 0;
                randomUUID := fun _ => "state"; randomCodeVerifier := fun _ => "verifier";
                sha256Base64url := fun v => v; cacheCall := fun _ _ => Returned tt;
                oidcCreateToken := fun _ _ => Hangs; oidcAuthorize := fun _ _ => Hangs;
                openExternal := fun _ _ => Hangs;
                listen := fun _ => Server.OnError "EADDRINUSE";
                redirects := fun _ => []; closeError := fun _ => None |} in
  fst (SsoAccessTokenProvider.authorize env Demo.profile (Demo.reg 9000000) (Demo.world ∅ ∅))
  = Threw (mkToolkitError ClassToolkitError "AuthSSOServer: Server not started" None).
Proof.
  intros env.
  destruct (authorize_start_failure env Demo.profile (Demo.reg 9000000) (Demo.world ∅ ∅))
    as [H _].
  - left. exists "EADDRINUSE". reflexivity.
  - exact H.
Defined.


Lemma authorize_exchange_is_bound_witness :
  let env := Demo.env 5000 Demo.healthy (Returned (Demo.tok "B" 9000000 None)) (Returned true)
               [Demo.query [("code", "C"); ("state", "7b0c1c3e-state")]] in
  exists t treq,
    In (OidcCreateToken treq) t /\
    req_code treq = Some "C" /\
    exchange_bound env (Demo.reg 9000000) "7b0c1c3e-state" t treq.
Proof.
  intros env.
  destruct (authorize_exchange_is_bound env Demo.profile (Demo.reg 9000000) (Demo.world ∅ ∅))
    as (t & Ht & Hbound).
  vm_compute in Ht. subst t.
  eexists. eexists. split; [|split; [|apply Hbound]].
  - do 5 right. left. reflexivity.
  - reflexivity.
  - do 5 right. left. reflexivity.
Defined.

Lemma setSessionCreationDate_best_effort_witness :
  let env := Demo.env 7000 Demo.healthy Hangs Hangs [] in
  let flow := DemoFlow.flow Hangs DemoFlow.ok DemoFlow.ok DemoFlow.ok in
  let r := SsoAccessTokenProvider.setSessionCreationDate flow "id" 5000 (Demo.world ∅ ∅) in
  fst r = Returned tt /\
  fst (SsoAccessTokenProvider.getSessionDuration env "id" (snd r)) = Returned (Some 2000).
Proof.
  intros env flow r.
  destruct (setSessionCreationDate_best_effort env flow "id" 5000 (Demo.world ∅ ∅))
    as (_ & _ & _ & Hok & _).
  destruct (Hok eq_refl) as (Hret & _ & _ & Hduration).
  split; [exact Hret | exact Hduration].
Defined.

Lemma runFlow_policy_witness :
  let env := Demo.env 5000 Demo.healthy (Threw (Demo.serviceException "invalid client"))
               (Returned true) [Demo.query [("code", "C"); ("state", "7b0c1c3e-state")]] in
  let flow := DemoFlow.flow Hangs DemoFlow.ok DemoFlow.ok DemoFlow.ok in
  let w := Demo.world ∅ {[ Demo.regKey := Demo.reg 9000000 ]} in
  fst (SsoAccessTokenProvider.runFlow env Demo.profile flow w)
  = Threw (Demo.serviceException "invalid client")
  /\ registrationCache (snd (SsoAccessTokenProvider.runFlow env Demo.profile flow w))
     !! Demo.regKey = None.
Proof.
  intros env flow w.
  assert (Hreg : SsoAccessTokenProvider.getValidatedClientRegistration env Demo.profile flow w
                 = (Returned (Demo.reg 9000000), w)) by (vm_compute; reflexivity).
  destruct (runFlow_policy env Demo.profile flow w w (Demo.reg 9000000) Hreg) as [_ H].
  destruct (H (Demo.serviceException "invalid client")
              (snd (SsoAccessTokenProvider.authorize env Demo.profile (Demo.reg 9000000) w)))
    as [_ Hfault].
  - vm_compute. reflexivity.
  - destruct (Hfault eq_refl) as (_ & _ & Hclear).
    apply Hclear. reflexivity.
Defined.

Lemma createToken_result_witness :
  let env := Demo.env 5000 Demo.healthy (Returned (Demo.tok "B" 9000000 None)) (Returned true)
               [Demo.query [("code", "C"); ("state", "7b0c1c3e-state")]] in
  let flow := DemoFlow.flow Hangs DemoFlow.ok DemoFlow.ok (Threw Demo.diskError) in
  let w := Demo.world ∅ {[ Demo.regKey := Demo.reg 9000000 ]} in
  fst (SsoAccessTokenProvider.createToken env Demo.profile flow w)
  = Returned (withIdentity Demo.key (Demo.tok "B" 9000000 None)).
Proof.
  intros env flow w.
  destruct (createToken_result env Demo.profile flow w) as [_ H].
  destruct (H (Demo.cached (Demo.tok "B" 9000000 None) (Some (Demo.reg 9000000)))
              (snd (SsoAccessTokenProvider.runFlow env Demo.profile flow w)))
    as [_ Hsaved].
  - vm_compute. reflexivity.
  - destruct Hsaved as (Hret & _); [reflexivity | discriminate | exact Hret].
Defined.

Lemma getToken_after_createToken_witness :
  let env := Demo.env 5000 Demo.healthy (Returned (Demo.tok "B" 9000000 None)) (Returned true)
               [Demo.query [("code", "C"); ("state", "7b0c1c3e-state")]] in
  let flow := DemoFlow.flow Hangs DemoFlow.ok DemoFlow.ok DemoFlow.ok in
  let w := Demo.world ∅ {[ Demo.regKey := Demo.reg 9000000 ]} in
  exists cached,
    fst (SsoAccessTokenProvider.getToken env Demo.profile
           (snd (SsoAccessTokenProvider.createToken env Demo.profile flow w)))
    = Returned (Some cached)
    /\ accessToken cached = "B".
Proof.
  intros env flow w.
  destruct (getToken_after_createToken env Demo.profile flow w
              (snd (SsoAccessTokenProvider.createToken env Demo.profile flow w))
              (withIdentity Demo.key (Demo.tok "B" 9000000 None)))
    as (cached & Hget & _ & Haccess).
  - vm_compute. reflexivity.
  - reflexivity.
  - reflexivity.
  - exists cached. split; [by rewrite Hget | exact Haccess].
Defined.

Lemma getValidatedClientRegistration_cases_witness :
  let env := Demo.env 5000 Demo.healthy Hangs Hangs [] in
  let flow := DemoFlow.flow (Returned (Demo.reg 9000000)) DemoFlow.ok DemoFlow.ok DemoFlow.ok in
  let w := Demo.world ∅ {[ Demo.regKey := DemoFlow.legacy 9000000 ]} in
  fst (SsoAccessTokenProvider.getValidatedClientRegistration env Demo.profile flow w)
  = Returned (Demo.reg 9000000).
Proof.
  intros env flow w.
  destruct (getValidatedClientRegistration_cases env Demo.profile flow w eq_refl)
    as (_ & Hstale & _).
  exact (proj1 (Hstale (DemoFlow.legacy 9000000) (Demo.reg 9000000)
                  eq_refl (or_intror eq_refl) eq_refl eq_refl eq_refl eq_refl eq_refl)).
Defined.

Lemma cors_headers_witness :
  In ("Access-Control-Allow-Origin", "*")
     (Server.res_headers
        (snd (Server.requestListener
                {| Server.req_origin := Some "http://test.local"; Server.req_url := None |}
                (Server.new "state")))).
Proof.
  destruct (cors_headers
              {| Server.req_origin := Some "http://test.local"; Server.req_url := None |}
              (Server.new "state")) as (_ & Horigin & _).
  apply Horigin. exists 7%nat. reflexivity.
Defined.

Lemma authorize_closes_once_witness :
  let env := Demo.env 5000 Demo.healthy Hangs (Returned false) [] in
  exists t,
    trace (snd (SsoAccessTokenProvider.authorize env Demo.profile (Demo.reg 9000000)
                  (Demo.world ∅ ∅)))
    = t ++ [ServerClose]
    /\ Forall (fun ev => ev <> ServerClose) t.
Proof.
  intros env.
  destruct (authorize_closes_once env Demo.profile (Demo.reg 9000000) (Demo.world ∅ ∅))
    as (t & Hno & [(Hhangs & _) | (_ & Htrace & _)]).
  - vm_compute in Hhangs. discriminate.
  - exists t. split; [exact Htrace | exact Hno].
Defined.

Lemma registerClient_request_witness :
  exists req,
    SsoAccessTokenProvider.registerClient Demo.profile
      (DemoFlow.flow Hangs DemoFlow.ok DemoFlow.ok DemoFlow.ok) (Demo.world ∅ ∅)
    = (Hangs, Demo.world ∅ ∅)
    /\ clientName req = "AWS Toolkit for VSCode"
    /\ register_issuerUrl req = startUrl Demo.profile.
Proof.
  destruct (registerClient_request Demo.profile
              (DemoFlow.flow Hangs DemoFlow.ok DemoFlow.ok DemoFlow.ok) (Demo.world ∅ ∅))
    as (req & Hrun & _ & _ & _ & _ & Hissuer & _ & _ & Hname).
  exists req. split; [exact Hrun|]. split; [exact Hname | exact Hissuer].
Defined.
